(** * anchor-3: the brace-balance scanners and the Ribbon class-name repair

    A shallow embedding of the Python scripts

    - [check_braces.py]                  (module [CheckBraces]),
    - [check_braces_detail.py]           (module [CheckBracesDetail]),
    - [check_braces_handleMouseDown.py]  (module [CheckBracesHandleMouseDown]),
    - [fix_ribbon.py]                    (modules [Re] and [FixRibbon]),

    followed by the properties of the specification that are stated about
    them.  Every script reads one file, makes one pass and prints; the
    embedding takes the file contents as its argument and returns what is
    printed (or, for the repair script, what is written back).

    Conventions.  A Python [int] is a [Z].  A line and the whole file text are
    [string]s; one [ascii] stands for one character of the Python [str], a code
    point in U+0000..U+00FF (text with other characters is not covered).
    [f.readlines()] is a [list string].  A call to [print] appends one [diag]
    to the list of printed diagnostics. *)

From Stdlib Require Import String Ascii List ZArith Bool Arith Lia.
Import ListNotations.

Local Open Scope Z_scope.

(** ** Text and brace counts *)

(** The characters of a line, in the order [for char in line] visits them. *)
Definition chars (s : string) : list ascii := list_ascii_of_string s.

(** All characters of a list of lines, line after line. *)
Definition text (lines : list string) : list ascii := flat_map chars lines.

Definition count_char (c : ascii) (cs : list ascii) : nat :=
  count_occ ascii_dec cs c.

(** Number of opening braces minus number of closing braces. *)
Definition brace_balance (cs : list ascii) : Z :=
  Z.of_nat (count_char "{" cs) - Z.of_nat (count_char "}" cs).

(** Does an opening brace occur? *)
Definition has_open (cs : list ascii) : bool :=
  existsb (Ascii.eqb "{") cs.

(** The lists of lines that [f.readlines()] can return.  In text mode every
    line ending is read as one line feed: a line is not empty, it has no
    carriage return, a line feed can only be its last character, and every
    line but the last one ends with a line feed. *)
Definition newline : ascii := "010".

Definition plain (c : ascii) : bool :=
  negb (Ascii.eqb c newline) && negb (Ascii.eqb c "013").

Definition is_line (last : bool) (line : string) : bool :=
  match rev (chars line) with
  | [] => false
  | c :: r => forallb plain r && (Ascii.eqb c newline || (last && plain c))
  end.

Fixpoint is_readlines (lines : list string) : bool :=
  match lines with
  | [] => true
  | line :: rest =>
      match rest with
      | [] => is_line true line
      | _ :: _ => is_line false line && is_readlines rest
      end
  end.

(** Is a text free of braces? *)
Definition brace_free (cs : list ascii) : bool :=
  forallb (fun c => negb (Ascii.eqb c "{") && negb (Ascii.eqb c "}")) cs.

Arguments chars : simpl never.
Arguments text : simpl never.
Arguments brace_balance : simpl never.
Arguments has_open : simpl never.

(** ** What the scripts print *)

Inductive diag : Type :=
| WentNegative (n : nat) (line : string)
    (** [check_braces.py]: "Balance went negative at line {n}: {line}" *)
| FinalBalance (balance : Z)
    (** [check_braces.py]: "Final balance: {balance}" *)
| PotentiallyClosed (n : nat) (line : string)
    (** [check_braces_detail.py]:
        "InteractionLayer potentially closed at line {n}: {line}" *)
| HandlerClosed (n : nat) (line : string)
    (** [check_braces_handleMouseDown.py]:
        "handleMouseDown closed at line {n}: {line}" *)
| BalanceNegative (n : nat)
    (** both tracked scanners: "Balance negative at {n}" *).

Definition is_negative_report (d : diag) : bool :=
  match d with
  | WentNegative _ _ | BalanceNegative _ => true
  | _ => false
  end.

(** The variables of the two tracked scanners, with the output so far. *)
Record state : Type := mkState {
  balance : Z;
  found_start : bool;
  out : list diag
}.

Definition init : state :=
  {| balance := 0; found_start := false; out := [] |}.

Definition print (d : diag) (st : state) : state :=
  {| balance := balance st; found_start := found_start st;
     out := out st ++ [d] |}.

(** ** check_braces.py *)

Module CheckBraces.

(** Lines 10-13: the body of [for char in line]. *)
Definition scan_char (balance : Z) (char : ascii) : Z :=
  if Ascii.eqb char "{" then balance + 1
  else if Ascii.eqb char "}" then balance - 1
  else balance.

(** Lines 9-13. *)
Definition scan_line (line : string) (balance : Z) : Z :=
  fold_left scan_char (chars line) balance.

(** Lines 8-17: the loop over [enumerate(lines)] from index [i] on; the
    result is the value of [balance] when the loop is left, with what the
    loop printed. *)
Fixpoint scan_lines (i : nat) (lines : list string) (balance : Z)
  : Z * list diag :=
  match lines with
  | [] => (balance, [])
  | line :: rest =>
      let balance := scan_line line balance in
      if balance <? 0 then (balance, [WentNegative (i + 1) line])
      else scan_lines (S i) rest balance
  end.

(** Lines 7-20. *)
Definition check_braces (lines : list string) : list diag :=
  let '(balance, printed) := scan_lines 0 lines 0 in
  if balance >=? 0 then printed ++ [FinalBalance balance] else printed.

(** The successive values of the variable [balance] while one line is
    scanned: one value after each character. *)
Fixpoint line_history (cs : list ascii) (balance : Z) : list Z :=
  match cs with
  | [] => []
  | char :: cs' =>
      let balance := scan_char balance char in
      balance :: line_history cs' balance
  end.

(** The successive values of [balance] during the loop of lines 8-17. *)
Fixpoint loop_history (lines : list string) (balance : Z) : list Z :=
  match lines with
  | [] => []
  | line :: rest =>
      let h := line_history (chars line) balance in
      let balance := scan_line line balance in
      if balance <? 0 then h else h ++ loop_history rest balance
  end.

(** The values of [balance] over the whole run, from the assignment of
    line 7 on. *)
Definition balance_history (lines : list string) : list Z :=
  0 :: loop_history lines 0.

End CheckBraces.

(** ** check_braces_detail.py *)

Module CheckBracesDetail.

(** Lines 12-20: the body of [for char in line], on line index [i]. *)
Definition scan_char (i : nat) (line : string) (st : state) (char : ascii)
  : state :=
  if Ascii.eqb char "{" then
    {| balance := balance st + 1;
       found_start := if (i + 1 =? 138)%nat then true else found_start st;
       out := out st |}
  else if Ascii.eqb char "}" then
    let st := {| balance := balance st - 1;
                 found_start := found_start st;
                 out := out st |} in
    if found_start st && (balance st =? 0)
    then print (PotentiallyClosed (i + 1) line) st
    else st
  else st.

(** Lines 11-20, started on the characters [cs] that are still to come. *)
Definition scan_chars (i : nat) (line : string) (cs : list ascii)
  (st : state) : state :=
  fold_left (scan_char i line) cs st.

Definition scan_line (i : nat) (line : string) (st : state) : state :=
  scan_chars i line (chars line) st.

(** Lines 10-24: the loop over [enumerate(lines)] from index [i] on. *)
Fixpoint scan_lines (i : nat) (lines : list string) (st : state) : state :=
  match lines with
  | [] => st
  | line :: rest =>
      let st := scan_line i line st in
      if balance st <? 0 then print (BalanceNegative (i + 1)) st
      else scan_lines (S i) rest st
  end.

(** Lines 7-24: the variables when the script ends. *)
Definition final_state (lines : list string) : state :=
  scan_lines 0 lines init.

Definition check_braces_detail (lines : list string) : list diag :=
  out (final_state lines).

(** The line on which, and the condition under which, the loop that starts at
    index [i] with balance [b] comes to raise the flag: line 138 is reached,
    no earlier line having ended below zero, and it has an opening brace. *)
Definition raises_flag (i : nat) (lines : list string) (b : Z) : Prop :=
  exists (k : nat) (line : string),
    (i + k = 137)%nat
    /\ nth_error lines k = Some line
    /\ has_open (chars line) = true
    /\ forall j, (j < k)%nat ->
                 0 <= b + brace_balance (text (firstn (S j) lines)).

End CheckBracesDetail.

(** ** check_braces_handleMouseDown.py *)

Module CheckBracesHandleMouseDown.

Definition start_line : nat := 374.
Definition end_line : nat := 988.

(** How a run ends: normally, or with the uncaught [IndexError] of
    [lines[i]]; either way with what was printed until then. *)
Inductive outcome : Type :=
| Finished (printed : list diag)
| IndexError (printed : list diag).

Definition printed_of (o : outcome) : list diag :=
  match o with Finished p | IndexError p => p end.

(** [range(a, b)] for natural numbers. *)
Definition py_range (a b : nat) : list nat := seq a (b - a).

(** Lines 15-21: the body of [for char in line], on line index [i]. *)
Definition scan_char (i : nat) (line : string) (st : state) (char : ascii)
  : state :=
  if Ascii.eqb char "{" then
    {| balance := balance st + 1; found_start := true; out := out st |}
  else if Ascii.eqb char "}" then
    let st := {| balance := balance st - 1;
                 found_start := found_start st;
                 out := out st |} in
    if found_start st && (balance st =? 0)
    then print (HandlerClosed (i + 1) line) st
    else st
  else st.

Definition scan_chars (i : nat) (line : string) (cs : list ascii)
  (st : state) : state :=
  fold_left (scan_char i line) cs st.

Definition scan_line (i : nat) (line : string) (st : state) : state :=
  scan_chars i line (chars line) st.

(** Lines 12-25: the loop of [i] over the indices [idxs]. *)
Fixpoint scan_range (lines : list string) (idxs : list nat) (st : state)
  : outcome :=
  match idxs with
  | [] => Finished (out st)
  | i :: rest =>
      match nth_error lines i with
      | None => IndexError (out st)
      | Some line =>
          let st := scan_line i line st in
          if found_start st && (balance st <? 0)
          then Finished (out (print (BalanceNegative (i + 1)) st))
          else scan_range lines rest st
      end
  end.

(** Lines 7-25. *)
Definition check_braces_handleMouseDown (lines : list string) : outcome :=
  scan_range lines (py_range (start_line - 1) end_line) init.

(** The range-bounded variant as the specification words it: the logic of
    the other scanners on the lines of the range, the trigger firing on the
    first opening brace of the range, and the negative-balance detection
    reporting the line and halting whenever the balance is below zero. *)
Fixpoint spec_scan_range (lines : list string) (idxs : list nat)
  (st : state) : outcome :=
  match idxs with
  | [] => Finished (out st)
  | i :: rest =>
      match nth_error lines i with
      | None => IndexError (out st)
      | Some line =>
          let st := scan_line i line st in
          if balance st <? 0
          then Finished (out (print (BalanceNegative (i + 1)) st))
          else spec_scan_range lines rest st
      end
  end.

Definition spec_range_scanner (lines : list string) : outcome :=
  spec_scan_range lines (py_range (start_line - 1) end_line) init.

(** The test of line 23 in terms of the characters [seen] since the state
    [st]: an opening brace has been met and the balance is below zero. *)
Definition halts_after (st : state) (seen : list ascii) : bool :=
  (found_start st || has_open seen)
  && (balance st + brace_balance seen <? 0).

(** The characters of the range up to the end of its [k]-th line (counted
    from 0, so that this is line [start_line + k] of the file). *)
Definition seen_to (lines : list string) (k : nat) : list ascii :=
  text (firstn (S k) (skipn (start_line - 1) lines)).

(** The test of line 23 at the end of that line. *)
Definition halts_at (lines : list string) (k : nat) : bool :=
  halts_after init (seen_to lines k).

End CheckBracesHandleMouseDown.

(** ** The part of Python's [re] and [str] that fix_ribbon.py uses *)

Module Re.

Local Open Scope nat_scope.

(** The code point of a character. *)
Definition code (c : ascii) : N := N_of_ascii c.

Definition in_range (lo hi : N) (c : ascii) : bool :=
  ((lo <=? code c) && (code c <=? hi))%N.

(** The class [[a-zA-Z0-9]]. *)
Definition alnum (c : ascii) : bool :=
  in_range (code "a") (code "z") c
  || in_range (code "A") (code "Z") c
  || in_range (code "0") (code "9") c.

(** The class [\s] of a [str] pattern: the characters for which
    [str.isspace] holds (tab to carriage return, the four separators
    U+001C..U+001F, space, U+0085 and U+00A0). *)
Definition space (c : ascii) : bool :=
  in_range 9 13 c || in_range 28 32 c
  || (code c =? 133)%N || (code c =? 160)%N.

(** The word characters that [\b] looks at in a [str] pattern:
    [str.isalnum] or an underscore. *)
Definition word (c : ascii) : bool :=
  alnum c || Ascii.eqb c "_"
  || existsb (N.eqb (code c)) [170; 178; 179; 181; 185; 186; 188; 189; 190]%N
  || in_range 192 214 c || in_range 216 246 c || in_range 248 255 c.

(** A compiled pattern is a sequence of operations, as in the engine. *)
Inductive op : Type :=
| LITERAL (c : ascii)              (** one given character *)
| IN (cls : ascii -> bool)         (** one character of a class *)
| MAX_REPEAT (cls : ascii -> bool) (** [cls+]: one or more, greedy *)
| AT_BOUNDARY                      (** [\b] *)
| MARK.                            (** where a group opens or closes *)

Definition pattern : Type := list op.

(** Does an operation consume at least one character? *)
Definition consumes (o : op) : bool :=
  match o with
  | LITERAL _ | IN _ | MAX_REPEAT _ => true
  | AT_BOUNDARY | MARK => false
  end.

Definition word_at (c : option ascii) : bool :=
  match c with Some c => word c | None => false end.

(** Length of the longest prefix of [s] made of characters of [cls]. *)
Fixpoint run (cls : ascii -> bool) (s : list ascii) : nat :=
  match s with
  | c :: s' => if cls c then S (run cls s') else 0
  | [] => 0
  end.

(** [exec ops prev s n marks] matches [ops] at a position of the subject
    where [s] are the characters to come and [prev] is the character before
    (none at the start of the text); [n] characters of the match are already
    consumed and [marks] are the offsets of the group boundaries passed.
    The result is the length of the match and its marks.  A greedy repeat
    first takes every character it can and gives them back one at a time
    while the rest of the pattern fails. *)
Fixpoint exec (ops : pattern) (prev : option ascii) (s : list ascii)
  (n : nat) (marks : list nat) : option (nat * list nat) :=
  match ops with
  | [] => Some (n, marks)
  | LITERAL c :: ops' =>
      match s with
      | x :: s' =>
          if Ascii.eqb x c then exec ops' (Some x) s' (S n) marks else None
      | [] => None
      end
  | IN cls :: ops' =>
      match s with
      | x :: s' => if cls x then exec ops' (Some x) s' (S n) marks else None
      | [] => None
      end
  | AT_BOUNDARY :: ops' =>
      if xorb (word_at prev) (word_at (hd_error s))
      then exec ops' prev s n marks
      else None
  | MARK :: ops' => exec ops' prev s n (marks ++ [n])
  | MAX_REPEAT cls :: ops' =>
      (fix back (j : nat) : option (nat * list nat) :=
         match j with
         | 0 => None
         | S j' =>
             match exec ops' (nth_error s j') (skipn j s) (n + j) marks with
             | Some r => Some r
             | None => back j'
             end
         end) (run cls s)
  end.

(** [m.group(k)] for a match that starts at [s] with the marks [marks]. *)
Definition group (s : list ascii) (marks : list nat) (k : nat)
  : list ascii :=
  let b := nth (2 * (k - 1)) marks 0 in
  let e := nth (2 * (k - 1) + 1) marks 0 in
  firstn (e - b) (skipn b s).

(** A replacement template: literal text and group references [\k]. *)
Inductive titem : Type :=
| Text (t : string)
| Group (k : nat).

Definition expand (tpl : list titem) (s : list ascii) (marks : list nat)
  : list ascii :=
  flat_map (fun it => match it with
                      | Text t => chars t
                      | Group k => group s marks k
                      end) tpl.

(** [re.sub]: the text is searched from left to right; each match, the
    leftmost one from where the previous one ended, is replaced by the
    expanded template.  [skip] counts the characters of the current match
    that are still to be passed over.  No pattern of the script matches the
    empty string (lemma [rule_patterns_consume] below), so a match of length
    zero is not given a replacement here. *)
Fixpoint sub_from (p : pattern) (tpl : list titem) (prev : option ascii)
  (s : list ascii) (skip : nat) : list ascii :=
  match s with
  | [] => []
  | c :: s' =>
      match skip with
      | S k => sub_from p tpl (Some c) s' k
      | 0 =>
          match exec p prev s 0 [] with
          | Some (S n, marks) =>
              expand tpl s marks ++ sub_from p tpl (Some c) s' n
          | _ => c :: sub_from p tpl (Some c) s' 0
          end
      end
  end.

Definition sub (p : pattern) (tpl : list titem) (content : string)
  : string :=
  string_of_list_ascii (sub_from p tpl None (chars content) 0).

(** [re.search(p, s) is not None]. *)
Fixpoint search_from (p : pattern) (prev : option ascii) (s : list ascii)
  : bool :=
  match exec p prev s 0 [] with
  | Some _ => true
  | None =>
      match s with
      | [] => false
      | c :: s' => search_from p (Some c) s'
      end
  end.

Definition search (p : pattern) (content : string) : bool :=
  search_from p None (chars content).

Fixpoint starts_with (old s : list ascii) : bool :=
  match old, s with
  | [], _ => true
  | o :: old', c :: s' => Ascii.eqb o c && starts_with old' s'
  | _ :: _, [] => false
  end.

(** [str.replace(old, new)] for a non-empty [old], which is how the script
    always calls it: the occurrences of [old] are replaced from left to
    right, without overlap. *)
Fixpoint replace_from (old new s : list ascii) (skip : nat) : list ascii :=
  match s with
  | [] => []
  | c :: s' =>
      match skip with
      | S k => replace_from old new s' k
      | 0 =>
          if starts_with old s
          then new ++ replace_from old new s' (length old - 1)
          else c :: replace_from old new s' 0
      end
  end.

Definition replace (old new content : string) : string :=
  string_of_list_ascii (replace_from (chars old) (chars new) (chars content) 0).

(** [old in s]. *)
Fixpoint contains_from (old s : list ascii) : bool :=
  starts_with old s
  || match s with
     | [] => false
     | _ :: s' => contains_from old s'
     end.

Definition contains (old content : string) : bool :=
  contains_from (chars old) (chars content).

End Re.

(** ** fix_ribbon.py *)

Module FixRibbon.

Import Re.

(** A run of literal characters in a pattern. *)
Definition lit (s : string) : pattern := map LITERAL (chars s).

(** [\s-\s]. *)
Definition spaced_dash : pattern := [IN space; LITERAL "-"; IN space].

(** Line 14: [([a-zA-Z0-9]+)\s-\s([a-zA-Z0-9]+)]. *)
Definition word_dash_word : pattern :=
  [MARK; MAX_REPEAT alnum; MARK] ++ spaced_dash
  ++ [MARK; MAX_REPEAT alnum; MARK].

(** Line 19. *)
Definition prefixes : list string :=
  ["p"; "px"; "py"; "m"; "mx"; "my"; "duration"; "z"; "top"; "left";
   "right"; "bottom"; "gap"; "h"; "w"; "min"; "max"]%string.

(** Line 21: [r'\b' + p + r'\s-\s']. *)
Definition prefix_dash (p : string) : pattern :=
  [AT_BOUNDARY] ++ lit p ++ spaced_dash.

(** Line 24: [([a-zA-Z0-9]+)\s-\s(\[)]. *)
Definition word_dash_bracket : pattern :=
  [MARK; MAX_REPEAT alnum; MARK] ++ spaced_dash
  ++ [MARK; LITERAL "["; MARK].

(** Line 49: [bg-\[var\(--border\s-\scolor\)\]mx\s-\s1]. *)
Definition border_color_mx : pattern :=
  lit "bg-[var(--border" ++ spaced_dash ++ lit "color)]mx"
  ++ spaced_dash ++ lit "1".

(** Line 50: [bg-\[var\(--border\s-\scolor\)\]]. *)
Definition border_color : pattern :=
  lit "bg-[var(--border" ++ spaced_dash ++ lit "color)]".

(** Line 53: [hover:\s+bg\s+-\s+]. *)
Definition hover_bg : pattern :=
  lit "hover:" ++ [MAX_REPEAT space] ++ lit "bg"
  ++ [MAX_REPEAT space; LITERAL "-"; MAX_REPEAT space].

(** One assignment to [content]. *)
Inductive rule : Type :=
| Sub (p : pattern) (repl : list titem)
| Replace (old new : string).

Definition apply_rule (content : string) (r : rule) : string :=
  match r with
  | Sub p repl => sub p repl content
  | Replace old new => replace old new content
  end.

(** Lines 14-53, in the order the script runs them. *)
Definition rules : list rule :=
  [Sub word_dash_word [Group 1; Text "-"; Group 2]]
  ++ map (fun p => Sub (prefix_dash p) [Text (p ++ "-")]) prefixes
  ++ [Sub word_dash_bracket [Group 1; Text "-"; Group 2];
      Replace "panel - border" "panel-border";
      Replace "panel - bg" "panel-bg";
      Replace "items - stretch" "items-stretch";
      Replace "select - none" "select-none";
      Replace "transition - all" "transition-all";
      Replace "transition - colors" "transition-colors";
      Replace "transition - transform" "transition-transform";
      Replace "items - center" "items-center";
      Replace "justify - center" "justify-center";
      Replace "border - b" "border-b";
      Replace "border - l" "border-l";
      Replace "border - r" "border-r";
      Replace "border - t" "border-t";
      Replace "shadow - xl" "shadow-xl";
      Replace "shadow - inner" "shadow-inner";
      Replace "flex - col" "flex-col";
      Replace "flex - 1" "flex-1";
      Replace "rounded - full" "rounded-full";
      Replace "hover: bg -" "hover:bg-";
      Replace "bg - white" "bg-white";
      Sub border_color_mx [Text "bg-[var(--border-color)] mx-1"];
      Sub border_color [Text "bg-[var(--border-color)]"];
      Sub hover_bg [Text "hover:bg-"]].

(** The text the script writes back for the text it read. *)
Definition fix_ribbon (content : string) : string :=
  fold_left apply_rule rules content.

(** Does the target of a rule occur in a text? *)
Definition rule_matches (content : string) (r : rule) : bool :=
  match r with
  | Sub p _ => search p content
  | Replace old _ => contains old content
  end.

(** What [sub_from] and [replace_from] take for granted: a pattern never
    matches the empty string and [old] is never empty. *)
Definition well_formed (r : rule) : bool :=
  match r with
  | Sub p _ => existsb consumes p
  | Replace old _ => negb (String.eqb old "")
  end.

(** Does any target of the rule set occur? *)
Definition targets_remain (content : string) : bool :=
  existsb (rule_matches content) rules.

End FixRibbon.

(** ** Sample inputs *)

Module Samples.

Local Open Scope string_scope.

(** A row of text with its line feed, and the lines of the file that has the
    given rows. *)
Definition ln (row : string) : string := row ++ String newline "".

Definition file_of (rows : list string) : list string := map ln rows.

(** A file of 988 lines whose line 374 is a lone closing brace. *)
Definition lone_close_at_374 : list string :=
  file_of (repeat "" 373 ++ ["}"] ++ repeat "" 614).

(** Two files of more than 988 lines with the same lines 374 to 988 and
    different, unbalanced text around them. *)
Definition range_lines : list string := file_of (["{"; "}"] ++ repeat "" 613).
Definition padded_1 : list string :=
  repeat (ln "}") 373 ++ range_lines ++ [ln "}}}"].
Definition padded_2 : list string :=
  repeat (ln "{{") 373 ++ range_lines ++ [ln "{"; ln "{"].

(** A file of 374 lines, fewer than [end_line], whose last line closes one
    brace more than it opens. *)
Definition short_file : list string := file_of (repeat "" 373 ++ ["{}}"]).

(** A file of 375 lines that ends inside the range, with a balance that is
    not below zero once a brace has opened. *)
Definition truncated_file : list string :=
  repeat (ln "}") 373 ++ [ln "}"; ln "{{}"].

(** A file of 377 lines: a closing brace on line 374, the next line opens a
    brace, the one after closes two. *)
Definition late_open_file : list string :=
  file_of (repeat "" 373 ++ ["}"; "{"; "}}"; "{"]).

(** A file of 138 lines: a brace opens on line 137 and closes on line 138. *)
Definition closes_on_138 : list string :=
  file_of (repeat "" 136 ++ ["{"; "}"]).

(** A file of 139 lines with an opening brace on line 138. *)
Definition opens_on_138 : list string :=
  file_of (repeat "" 136 ++ ["{"; "{}"; "}"]).

End Samples.

(** ** Zero-return events, counted on the text *)

Module Tracking.

(** Is the character at position [j] of [cs] a closing brace that brings
    the balance back to 0 while the flag is set?  [b] and [fs] are the balance
    and the flag before [cs], and [trig] says whether an opening brace of
    [cs] sets the flag. *)
Definition zero_return (trig fs : bool) (b : Z) (cs : list ascii) (j : nat)
  : bool :=
  match nth_error cs j with
  | Some c => Ascii.eqb c "}"
  | None => false
  end
  && (fs || (trig && has_open (firstn j cs)))
  && (b + brace_balance (firstn (S j) cs) =? 0).

(** The number of such positions. *)
Definition zero_returns (trig fs : bool) (b : Z) (cs : list ascii) : nat :=
  length (filter (zero_return trig fs b cs) (seq 0 (length cs))).

(** What check_braces_handleMouseDown.py prints for the [k]-th line of the
    range (counted from 0) when it scans it: the zero-returns of that line,
    given the text of the range before it. *)
Definition range_closures (lines : list string) (k : nat) : list diag :=
  let before :=
    text (firstn k (skipn (CheckBracesHandleMouseDown.start_line - 1) lines)) in
  let line := nth (CheckBracesHandleMouseDown.start_line - 1 + k) lines ""%string in
  repeat (HandlerClosed (CheckBracesHandleMouseDown.start_line + k) line)
    (zero_returns true (has_open before) (brace_balance before) (chars line)).

(** The events of the [j]-th line from index [a] on, for a scan of
    check_braces_handleMouseDown.py that is in state [st] at index [a]. *)
Definition closures_from (st : state) (a : nat) (lines : list string) (j : nat)
  : list diag :=
  repeat (HandlerClosed (a + j + 1) (nth (a + j) lines ""%string))
    (zero_returns true
       (found_start st || has_open (text (firstn j (skipn a lines))))
       (balance st + brace_balance (text (firstn j (skipn a lines))))
       (chars (nth (a + j) lines ""%string))).

(** Does the flag of check_braces_detail.py get raised on the lines [ls],
    the first of which has index [i]?  It does when line 138 is among them
    and has an opening brace. *)
Fixpoint flag_in (i : nat) (ls : list string) : bool :=
  match ls with
  | [] => false
  | l :: rest =>
      ((i + 1 =? 138)%nat && has_open (chars l)) || flag_in (S i) rest
  end.

(** The events of the [j]-th line of [lines], for a scan of
    check_braces_detail.py that is in state [st] at the first of them, which
    has index [i]. *)
Definition detail_closures_from (st : state) (i : nat) (lines : list string)
  (j : nat) : list diag :=
  repeat (PotentiallyClosed (i + j + 1) (nth j lines ""%string))
    (zero_returns (i + j + 1 =? 138)%nat
       (found_start st || flag_in i (firstn j lines))
       (balance st + brace_balance (text (firstn j lines)))
       (chars (nth j lines ""%string))).

(** What check_braces_detail.py prints for the line of index [k] when it
    scans it: the zero-returns of that line, given the text before it and
    whether line 138 lies before it and has an opening brace. *)
Definition detail_closures (lines : list string) (k : nat) : list diag :=
  repeat (PotentiallyClosed (k + 1) (nth k lines ""%string))
    (zero_returns (k + 1 =? 138)%nat
       ((137 <? k)%nat && has_open (chars (nth 137 lines ""%string)))
       (brace_balance (text (firstn k lines)))
       (chars (nth k lines ""%string))).

End Tracking.

(** ** fix_ribbon_2.py *)

Module FixRibbon2.

Import Re FixRibbon.

(** The class [[^\]]]. *)
Definition not_bracket (c : ascii) : bool := negb (Ascii.eqb c "]").

(** The class [[a-zA-Z]]. *)
Definition alpha (c : ascii) : bool :=
  in_range (code "a") (code "z") c || in_range (code "A") (code "Z") c.

(** Line 13: [(bg-\[[^\]]+\])([a-zA-Z])]. *)
Definition bracket_letter : pattern :=
  [MARK] ++ lit "bg-[" ++ [MAX_REPEAT not_bracket; LITERAL "]"; MARK]
  ++ [MARK; IN alpha; MARK].

(** Lines 10-13, in the order the script runs them. *)
Definition rules : list rule :=
  [Replace "bg-[var(--border-color)]mx-1" "bg-[var(--border-color)] mx-1";
   Sub bracket_letter [Group 1; Text " "; Group 2]].

(** The text the script writes back for the text it read. *)
Definition fix_ribbon_2 (content : string) : string :=
  fold_left apply_rule rules content.

End FixRibbon2.

(** ** What a pattern lets through *)

Module Shape.

Import Re.

(** The characters a pattern names one by one. *)
Definition literals (ops : pattern) : list ascii :=
  flat_map (fun o => match o with LITERAL c => [c] | _ => [] end) ops.

(** The number of operations that consume a character. *)
Definition width (ops : pattern) : nat :=
  length (filter consumes ops).

(** Every class of the pattern is made of characters that [keep] drops. *)
Definition classes_dropped (keep : ascii -> bool) (ops : pattern) : Prop :=
  Forall (fun o => match o with
                   | IN cls | MAX_REPEAT cls =>
                       forall c, cls c = true -> keep c = false
                   | _ => True
                   end) ops.

(** The characters that are not white space, and those that are not the
    space character. *)
Definition black (c : ascii) : bool := negb (space c).
Definition not_blank (c : ascii) : bool := negb (Ascii.eqb c " ").

(** The class of one character. *)
Definition is_char (c : ascii) : ascii -> bool := fun x => Ascii.eqb x c.

(** Is there a character of [P] directly followed by one of [Q]? *)
Fixpoint adjacent (P Q : ascii -> bool) (s : list ascii) : bool :=
  match s with
  | c :: (d :: _) as s' => (P c && Q d) || adjacent P Q s'
  | _ => false
  end.

(** Is every character of [cls] one of [P]?  There are 256 to look at. *)
Definition subclass (cls P : ascii -> bool) : bool :=
  forallb (fun n => implb (cls (ascii_of_nat n)) (P (ascii_of_nat n)))
    (seq 0 256).

(** Does the operation take characters of [P] only? *)
Definition takes_only (P : ascii -> bool) (o : op) : bool :=
  match o with
  | LITERAL c => P c
  | IN cls | MAX_REPEAT cls => subclass cls P
  | AT_BOUNDARY | MARK => false
  end.

(** Does the first operation that takes a character take one of [Q]? *)
Fixpoint starts_in (Q : ascii -> bool) (ops : pattern) : bool :=
  match ops with
  | [] => false
  | o :: ops' => if consumes o then takes_only Q o else starts_in Q ops'
  end.

(** The same question as [adjacent] for a pattern: an operation that ends
    on a character of [P], and the next character is taken from [Q]. *)
Fixpoint asks_adjacent (P Q : ascii -> bool) (ops : pattern) : bool :=
  match ops with
  | [] => false
  | o :: ops' => (takes_only P o && starts_in Q ops') || asks_adjacent P Q ops'
  end.

End Shape.

(** ** What a rule does to the text it rewrites *)

Module RuleShape.

Import Re FixRibbon.

(** Each replacement keeps what its target keeps under [keep]. *)
Definition keeps (keep : ascii -> bool) (r : rule) : Prop :=
  match r with
  | Sub p tpl =>
      forall prev s n marks,
        exec p prev s 0 [] = Some (S n, marks) ->
        filter keep (expand tpl s marks) = filter keep (firstn (S n) s)
  | Replace old new =>
      chars old <> []
      /\ filter keep (chars new) = filter keep (chars old)
  end.

(** No replacement is longer than its target. *)
Definition not_longer (r : rule) : Prop :=
  match r with
  | Sub p tpl =>
      forall prev s n marks,
        exec p prev s 0 [] = Some (S n, marks) ->
        (length (expand tpl s marks) <= S n)%nat
  | Replace old new =>
      chars old <> [] /\ (length (chars new) <= length (chars old))%nat
  end.

(** No replacement is shorter than its target. *)
Definition not_shorter (r : rule) : Prop :=
  match r with
  | Sub p tpl =>
      forall prev s n marks,
        exec p prev s 0 [] = Some (S n, marks) ->
        (S n <= length (expand tpl s marks))%nat
  | Replace old new =>
      chars old <> [] /\ (length (chars old) <= length (chars new))%nat
  end.

(** The target of the rule has a character of [P] directly followed by one
    of [Q]. *)
Definition targets_adjacent (P Q : ascii -> bool) (r : rule) : bool :=
  match r with
  | Sub p _ => Shape.asks_adjacent P Q p
  | Replace old _ => Shape.adjacent P Q (chars old)
  end.

End RuleShape.

(** ** More sample inputs *)

Module MoreSamples.

Import Samples.

Local Open Scope string_scope.

(** A file whose first line closes a brace that was never opened, and lines
    to put after that line. *)
Definition closes_first : list string := file_of ["}"; "{"].
Definition other_lines : list string := file_of ["{{"; "}"].

(** Class names with nothing to repair. *)
Definition clean_classes : string := "flex-col items-center".
Definition spaced_border : string := "bg-[var(--border-color)] mx-1".

End MoreSamples.

(** * Properties *)

(** ** The definitions at work *)

Section Examples.

Import Re FixRibbon.

Local Open Scope string_scope.

(** The balance sequence of "{ } }" is 1, 0, -1: its line is reported. *)
Example check_braces_unmatched_close :
  CheckBraces.check_braces ["{ } }"] = [WentNegative 1 "{ } }"].
Proof. reflexivity. Qed.

Example check_braces_open_left :
  CheckBraces.check_braces ["{ {"; "}"] = [FinalBalance 1].
Proof. reflexivity. Qed.

(** The greedy groups and the search that goes on after a match. *)
Example sub_word_dash_word :
  sub word_dash_word [Group 1; Text "-"; Group 2] "p - 4 and a - b - c"
  = "p-4 and a-b - c".
Proof. vm_compute. reflexivity. Qed.

(** The word boundary: no match inside "ap" or after an underscore. *)
Example sub_prefix_dash :
  sub (prefix_dash "p") [Text "p-"] "p - x ap - x _p - x .p - x"
  = "p-x ap - x _p - x .p-x".
Proof. vm_compute. reflexivity. Qed.

Example sub_word_dash_bracket :
  sub word_dash_bracket [Group 1; Text "-"; Group 2] "bg - [#333] w - [10px]"
  = "bg-[#333] w-[10px]".
Proof. vm_compute. reflexivity. Qed.

Example sub_hover_bg :
  sub hover_bg [Text "hover:bg-"] "hover:   bg  -   x hover:bg - y"
  = "hover:bg-x hover:bg - y".
Proof. vm_compute. reflexivity. Qed.

Example replace_without_overlap : replace "aa" "b" "aaa" = "ba".
Proof. reflexivity. Qed.

End Examples.

(** ** Brace counts *)

Section BraceCounts.

Lemma brace_balance_nil : brace_balance [] = 0.
Proof. reflexivity. Qed.

Lemma brace_balance_cons (c : ascii) (cs : list ascii) :
  brace_balance (c :: cs) = brace_balance [c] + brace_balance cs.
Proof.
  unfold brace_balance, count_char; simpl.
  destruct (ascii_dec c "{"), (ascii_dec c "}"); lia.
Qed.

Lemma brace_balance_app (xs ys : list ascii) :
  brace_balance (xs ++ ys) = brace_balance xs + brace_balance ys.
Proof.
  unfold brace_balance, count_char.
  rewrite !count_occ_app. lia.
Qed.

Lemma brace_balance_open : brace_balance ["{"%char] = 1.
Proof. reflexivity. Qed.

Lemma brace_balance_close : brace_balance ["}"%char] = -1.
Proof. reflexivity. Qed.

Lemma brace_balance_other (c : ascii) :
  c <> "{"%char -> c <> "}"%char -> brace_balance [c] = 0.
Proof.
  intros Ho Hc. unfold brace_balance, count_char; simpl.
  destruct (ascii_dec c "{"), (ascii_dec c "}"); try congruence.
  reflexivity.
Qed.

Lemma text_nil : text [] = [].
Proof. reflexivity. Qed.

Lemma text_cons (line : string) (lines : list string) :
  text (line :: lines) = chars line ++ text lines.
Proof. reflexivity. Qed.

Lemma text_app (l1 l2 : list string) : text (l1 ++ l2) = text l1 ++ text l2.
Proof. unfold text. apply flat_map_app. Qed.

Lemma has_open_app (xs ys : list ascii) :
  has_open (xs ++ ys) = has_open xs || has_open ys.
Proof. unfold has_open. apply existsb_app. Qed.

(** The three cases of a character, as the scanners distinguish them. *)
Lemma char_cases (c : ascii) :
  (c = "{"%char /\ Ascii.eqb c "{" = true)
  \/ (c = "}"%char /\ Ascii.eqb c "{" = false /\ Ascii.eqb c "}" = true)
  \/ (c <> "{"%char /\ c <> "}"%char
      /\ Ascii.eqb c "{" = false /\ Ascii.eqb c "}" = false).
Proof.
  destruct (Ascii.eqb_spec c "{") as [->|Ho]; [now left|].
  destruct (Ascii.eqb_spec c "}") as [->|Hc]; [right; left|right; right];
    auto.
Qed.

End BraceCounts.

(** A property checked on every number below [n] holds below [n]. *)
Lemma forallb_below (P : nat -> bool) (n : nat) :
  forallb P (seq 0 n) = true -> forall j, (j < n)%nat -> P j = true.
Proof.
  intros H j Hj. rewrite forallb_forall in H. apply H, in_seq. lia.
Qed.

Lemma firstn_S_text (line : string) (rest : list string) (j : nat) :
  text (firstn (S j) (line :: rest)) = chars line ++ text (firstn j rest).
Proof. reflexivity. Qed.

(** The text of no lines at all is empty, wherever it shows up. *)
Ltac no_lines_left :=
  repeat match goal with
    | H : context [text (firstn 0 ?l)] |- _ =>
        change (text (firstn 0 l)) with (@nil ascii) in H
    | |- context [text (firstn 0 ?l)] =>
        change (text (firstn 0 l)) with (@nil ascii)
    end.

(** ** check_braces.py *)

Section CheckBracesFacts.

Import CheckBraces.

Lemma basic_scan_char_balance (b : Z) (c : ascii) :
  scan_char b c = b + brace_balance [c].
Proof.
  unfold scan_char.
  destruct (char_cases c) as [[-> ->]|[[-> [-> ->]]|(Ho & Hc & -> & ->)]].
  - rewrite brace_balance_open. lia.
  - rewrite brace_balance_close. lia.
  - rewrite brace_balance_other by assumption. lia.
Qed.

Lemma basic_fold_balance (cs : list ascii) (b : Z) :
  fold_left scan_char cs b = b + brace_balance cs.
Proof.
  revert b. induction cs as [|c cs IH]; intros b; simpl.
  - rewrite brace_balance_nil. lia.
  - rewrite IH, basic_scan_char_balance, (brace_balance_cons c cs). lia.
Qed.

Lemma basic_scan_line_balance (line : string) (b : Z) :
  scan_line line b = b + brace_balance (chars line).
Proof. apply basic_fold_balance. Qed.

(** While no line ends below zero the loop runs to the end of the list. *)
Lemma scan_lines_no_negative (lines : list string) (i : nat) (b : Z) :
  (forall j, (j < length lines)%nat ->
             0 <= b + brace_balance (text (firstn (S j) lines))) ->
  scan_lines i lines b = (b + brace_balance (text lines), []).
Proof.
  revert i b. induction lines as [|line rest IH]; intros i b H.
  - cbn. f_equal. rewrite text_nil, brace_balance_nil. lia.
  - cbn [scan_lines]. rewrite basic_scan_line_balance.
    assert (H0 := H 0%nat ltac:(simpl; lia)).
    rewrite firstn_S_text, brace_balance_app in H0.
    no_lines_left.
    rewrite brace_balance_nil in H0.
    destruct (Z.ltb_spec (b + brace_balance (chars line)) 0); [lia|].
    rewrite IH.
    + rewrite text_cons, brace_balance_app. f_equal. lia.
    + intros j Hj. specialize (H (S j) ltac:(simpl; lia)).
      rewrite firstn_S_text, brace_balance_app in H. lia.
Qed.

(** The loop leaves at the first line that ends below zero. *)
Lemma scan_lines_first_negative (k : nat) :
  forall (lines : list string) (i : nat) (b : Z) (line : string),
    nth_error lines k = Some line ->
    (forall j, (j < k)%nat ->
               0 <= b + brace_balance (text (firstn (S j) lines))) ->
    b + brace_balance (text (firstn (S k) lines)) < 0 ->
    scan_lines i lines b
    = (b + brace_balance (text (firstn (S k) lines)),
       [WentNegative (i + k + 1) line]).
Proof.
  induction k as [|k IH]; intros lines i b line Hnth Hpre Hneg;
    destruct lines as [|l0 rest]; try discriminate; cbn in Hnth.
  - injection Hnth as ->.
    rewrite firstn_S_text, brace_balance_app in *.
    no_lines_left.
    rewrite brace_balance_nil in *.
    cbn [scan_lines]. rewrite basic_scan_line_balance.
    destruct (Z.ltb_spec (b + brace_balance (chars line)) 0); [|lia].
    rewrite Nat.add_0_r. f_equal. lia.
  - rewrite firstn_S_text, brace_balance_app in *.
    assert (H0 := Hpre 0%nat ltac:(lia)).
    rewrite firstn_S_text, brace_balance_app in H0.
    no_lines_left.
    rewrite brace_balance_nil in H0.
    cbn [scan_lines]. rewrite basic_scan_line_balance.
    destruct (Z.ltb_spec (b + brace_balance (chars l0)) 0); [lia|].
    rewrite (IH rest (S i) _ line Hnth).
    + f_equal; [lia|]. do 2 f_equal. lia.
    + intros j Hj. specialize (Hpre (S j) ltac:(lia)).
      rewrite firstn_S_text, brace_balance_app in Hpre. lia.
    + lia.
Qed.

End CheckBracesFacts.

(** The characters of the first lines of a text are a prefix of its
    characters. *)
Lemma text_firstn_prefix (lines : list string) (m : nat) :
  text (firstn m lines) = firstn (length (text (firstn m lines))) (text lines).
Proof.
  rewrite <- (firstn_skipn m lines) at 3.
  rewrite text_app, firstn_app, Nat.sub_diag, firstn_all.
  cbn [firstn]. now rewrite app_nil_r.
Qed.

Section BalanceHistory.

Import CheckBraces.

Lemma line_history_length (cs : list ascii) (b : Z) :
  length (line_history cs b) = length cs.
Proof.
  revert b. induction cs as [|c cs IH]; intros b; cbn; [|rewrite IH];
    reflexivity.
Qed.

Lemma line_history_nth (cs : list ascii) :
  forall (b : Z) (n : nat) (v : Z),
    nth_error (line_history cs b) n = Some v ->
    v = b + brace_balance (firstn (S n) cs).
Proof.
  induction cs as [|c cs IH]; intros b n v H; [now destruct n|].
  cbn [line_history] in H. rewrite basic_scan_char_balance in H.
  change (firstn (S n) (c :: cs)) with (c :: firstn n cs).
  rewrite brace_balance_cons.
  destruct n as [|n]; cbn in H.
  - injection H as <-. cbn [firstn]. rewrite brace_balance_nil. lia.
  - apply IH in H. lia.
Qed.

Lemma loop_history_nth (lines : list string) :
  forall (b : Z) (n : nat) (v : Z),
    nth_error (loop_history lines b) n = Some v ->
    v = b + brace_balance (firstn (S n) (text lines)).
Proof.
  induction lines as [|line rest IH]; intros b n v H; [now destruct n|].
  cbn [loop_history] in H. rewrite text_cons.
  assert (Hin : (n < length (chars line))%nat ->
                nth_error (line_history (chars line) b) n = Some v ->
                v = b + brace_balance (firstn (S n) (chars line ++ text rest))).
  { intros Hn Hv. apply line_history_nth in Hv.
    rewrite firstn_app.
    replace (S n - length (chars line))%nat with 0%nat by lia.
    cbn [firstn]. now rewrite app_nil_r. }
  destruct (scan_line line b <? 0).
  - apply Hin; [|exact H].
    rewrite <- (line_history_length (chars line) b).
    apply nth_error_Some. congruence.
  - destruct (Nat.lt_ge_cases n (length (chars line))) as [Hn|Hn].
    + apply Hin; [exact Hn|].
      rewrite nth_error_app1 in H; [exact H|].
      now rewrite line_history_length.
    + rewrite nth_error_app2 in H by (now rewrite line_history_length).
      rewrite line_history_length in H. apply IH in H.
      rewrite basic_scan_line_balance in H.
      rewrite firstn_app, firstn_all2 by lia.
      rewrite brace_balance_app.
      replace (S n - length (chars line))%nat
        with (S (n - length (chars line))) by lia.
      lia.
Qed.

Lemma last_cons_default {A : Type} (l : list A) (x d : A) :
  last (x :: l) d = last l x.
Proof.
  revert x d. induction l as [|y l IH]; intros x d; [reflexivity|].
  change (last (x :: y :: l) d) with (last (y :: l) d).
  now rewrite !IH.
Qed.

Lemma last_app_default {A : Type} (h l : list A) (d : A) :
  last (h ++ l) d = last l (last h d).
Proof.
  revert d. induction h as [|x h IH]; intros d; [reflexivity|].
  rewrite <- app_comm_cons, !last_cons_default. apply IH.
Qed.

Lemma line_history_last (cs : list ascii) (b : Z) :
  last (line_history cs b) b = fold_left scan_char cs b.
Proof.
  revert b. induction cs as [|c cs IH]; intros b; [reflexivity|].
  cbn [line_history fold_left]. rewrite last_cons_default. apply IH.
Qed.

(** The last value of the history is the value the loop is left with. *)
Lemma loop_history_last (lines : list string) :
  forall (i : nat) (b : Z),
    last (loop_history lines b) b = fst (scan_lines i lines b).
Proof.
  induction lines as [|line rest IH]; intros i b; [reflexivity|].
  cbn [loop_history scan_lines].
  destruct (scan_line line b <? 0) eqn:E.
  - apply line_history_last.
  - rewrite last_app_default, line_history_last. apply IH.
Qed.

(** The history has one value for each character scanned: for each character
    of the text when no line ends below zero, and else for each character up
    to the end of the first line that does. *)
Lemma loop_history_length_all (lines : list string) :
  forall b : Z,
    (forall j, (j < length lines)%nat ->
               0 <= b + brace_balance (text (firstn (S j) lines))) ->
    length (loop_history lines b) = length (text lines).
Proof.
  induction lines as [|line rest IH]; intros b H; [reflexivity|].
  cbn [loop_history]. rewrite basic_scan_line_balance, text_cons.
  assert (H0 := H 0%nat ltac:(cbn; lia)).
  rewrite firstn_S_text, brace_balance_app in H0. no_lines_left.
  rewrite brace_balance_nil in H0.
  destruct (Z.ltb_spec (b + brace_balance (chars line)) 0); [lia|].
  rewrite !length_app, line_history_length, IH; [reflexivity|].
  intros j Hj. specialize (H (S j) ltac:(cbn; lia)).
  rewrite firstn_S_text, brace_balance_app in H. lia.
Qed.

Lemma loop_history_length_halt (k : nat) :
  forall (lines : list string) (b : Z) (line : string),
    nth_error lines k = Some line ->
    (forall j, (j < k)%nat ->
               0 <= b + brace_balance (text (firstn (S j) lines))) ->
    b + brace_balance (text (firstn (S k) lines)) < 0 ->
    length (loop_history lines b) = length (text (firstn (S k) lines)).
Proof.
  induction k as [|k IH]; intros lines b line Hnth Hpre Hneg;
    destruct lines as [|l0 rest]; try discriminate; cbn in Hnth;
    cbn [loop_history]; rewrite basic_scan_line_balance;
    rewrite firstn_S_text in *; rewrite brace_balance_app in Hneg.
  - injection Hnth as ->. no_lines_left. rewrite brace_balance_nil in Hneg.
    destruct (Z.ltb_spec (b + brace_balance (chars line)) 0); [|lia].
    now rewrite app_nil_r, line_history_length.
  - assert (H0 := Hpre 0%nat ltac:(lia)).
    rewrite firstn_S_text, brace_balance_app in H0. no_lines_left.
    rewrite brace_balance_nil in H0.
    destruct (Z.ltb_spec (b + brace_balance (chars l0)) 0); [lia|].
    rewrite !length_app, line_history_length. f_equal.
    apply (IH rest _ line Hnth).
    + intros j Hj. specialize (Hpre (S j) ltac:(lia)).
      rewrite firstn_S_text, brace_balance_app in Hpre. lia.
    + lia.
Qed.

End BalanceHistory.

(** ** check_braces_detail.py *)

Section CheckBracesDetailFacts.

Import CheckBracesDetail.

Lemma detail_scan_char_balance (i : nat) (line : string) (st : state)
  (c : ascii) :
  balance (scan_char i line st c) = balance st + brace_balance [c].
Proof.
  unfold scan_char.
  destruct (char_cases c) as [[-> ->]|[[-> [-> ->]]|(Ho & Hc & -> & ->)]].
  - cbn. rewrite brace_balance_open. lia.
  - cbn [balance found_start]. rewrite brace_balance_close.
    destruct (found_start st && _); cbn; lia.
  - rewrite brace_balance_other by assumption. lia.
Qed.

Lemma detail_scan_chars_balance (i : nat) (line : string) (cs : list ascii) :
  forall st : state,
    balance (scan_chars i line cs st) = balance st + brace_balance cs.
Proof.
  unfold scan_chars. induction cs as [|c cs IH]; intros st; cbn [fold_left].
  - rewrite brace_balance_nil. lia.
  - rewrite IH, detail_scan_char_balance, (brace_balance_cons c cs). lia.
Qed.

Lemma detail_scan_chars_app (i : nat) (line : string) (xs ys : list ascii)
  (st : state) :
  scan_chars i line (xs ++ ys) st
  = scan_chars i line ys (scan_chars i line xs st).
Proof. apply fold_left_app. Qed.

(** The flag is raised by an opening brace of line 138, by nothing else, and
    it is never lowered. *)
Lemma detail_scan_chars_found_start (i : nat) (line : string)
  (cs : list ascii) :
  forall st : state,
    found_start (scan_chars i line cs st)
    = found_start st || ((i + 1 =? 138)%nat && has_open cs).
Proof.
  unfold scan_chars. induction cs as [|c cs IH]; intros st; cbn [fold_left].
  - cbn. now rewrite andb_false_r, orb_false_r.
  - rewrite IH. change (c :: cs) with ([c] ++ cs). rewrite has_open_app.
    assert (Hc : found_start (scan_char i line st c)
                 = found_start st || ((i + 1 =? 138)%nat && has_open [c])).
    { unfold scan_char, has_open. cbn [existsb]. rewrite orb_false_r.
      rewrite (Ascii.eqb_sym "{" c).
      destruct (Ascii.eqb c "{"); cbn [found_start].
      - destruct (i + 1 =? 138)%nat, (found_start st); reflexivity.
      - rewrite andb_false_r, orb_false_r.
        destruct (Ascii.eqb c "}"); [|reflexivity].
        cbn [found_start balance].
        now destruct (found_start st && _). }
    rewrite Hc.
    destruct (found_start st), (i + 1 =? 138)%nat, (has_open [c]),
      (has_open cs); reflexivity.
Qed.

(** Characters other than braces change nothing. *)
Lemma detail_scan_chars_brace_free (i : nat) (line : string)
  (cs : list ascii) (st : state) :
  brace_free cs = true -> scan_chars i line cs st = st.
Proof.
  unfold scan_chars, brace_free.
  induction cs as [|c cs IH]; intros H; [reflexivity|].
  cbn [forallb] in H. apply andb_prop in H as [Hc Hcs].
  apply andb_prop in Hc as [Ho Hc].
  cbn [fold_left]. unfold scan_char at 2.
  apply negb_true_iff in Ho, Hc. rewrite Ho, Hc. now apply IH.
Qed.

(** Lines without braces are passed over. *)
Lemma detail_scan_lines_brace_free (pre rest : list string) :
  forall (i : nat) (st : state),
    Forall (fun l => brace_free (chars l) = true) pre ->
    0 <= balance st ->
    scan_lines i (pre ++ rest) st = scan_lines (i + length pre) rest st.
Proof.
  induction pre as [|l pre IH]; intros i st Hfree Hb.
  - cbn. now rewrite Nat.add_0_r.
  - inversion Hfree as [|? ? Hl Hpre]; subst.
    cbn [app scan_lines]. unfold scan_line.
    rewrite detail_scan_chars_brace_free by assumption.
    destruct (Z.ltb_spec (balance st) 0); [lia|].
    rewrite IH by assumption. f_equal. cbn [length]. lia.
Qed.

Lemma raises_flag_cons (i : nat) (line : string) (rest : list string)
  (b : Z) :
  raises_flag i (line :: rest) b
  <-> (i = 137%nat /\ has_open (chars line) = true)
      \/ (0 <= b + brace_balance (chars line)
          /\ raises_flag (S i) rest (b + brace_balance (chars line))).
Proof.
  split.
  - intros (k & l & Hk & Hnth & Hopen & Hpre). destruct k as [|k].
    + left. cbn in Hnth. injection Hnth as ->. split; [lia|assumption].
    + right. cbn in Hnth.
      assert (H0 := Hpre 0%nat ltac:(lia)).
      rewrite firstn_S_text, brace_balance_app in H0.
      no_lines_left.
      rewrite brace_balance_nil in H0.
      split; [lia|]. exists k, l. repeat split; try assumption; [lia|].
      intros j Hj. specialize (Hpre (S j) ltac:(lia)).
      rewrite firstn_S_text, brace_balance_app in Hpre. lia.
  - intros [[-> Hopen]|[Hb (k & l & Hk & Hnth & Hopen & Hpre)]].
    + exists 0%nat, line. repeat split; try assumption. intros j Hj; lia.
    + exists (S k), l. repeat split; try assumption; [lia|].
      intros [|j] Hj; rewrite firstn_S_text, brace_balance_app.
      * no_lines_left.
        rewrite brace_balance_nil. lia.
      * specialize (Hpre j ltac:(lia)). lia.
Qed.

Lemma detail_scan_lines_found_start (lines : list string) :
  forall (i : nat) (st : state),
    found_start (scan_lines i lines st) = true
    <-> found_start st = true \/ raises_flag i lines (balance st).
Proof.
  induction lines as [|line rest IH]; intros i st.
  - cbn. split; [now left|]. intros [H|(k & l & _ & Hnth & _)]; [exact H|].
    now destruct k.
  - cbn [scan_lines]. rewrite raises_flag_cons.
    pose proof (detail_scan_chars_found_start i line (chars line) st) as Hf.
    pose proof (detail_scan_chars_balance i line (chars line) st) as Hb.
    fold (scan_line i line st) in Hf, Hb.
    assert (Hi : (i + 1 =? 138)%nat = true <-> i = 137%nat).
    { rewrite Nat.eqb_eq. lia. }
    destruct (Z.ltb_spec (balance (scan_line i line st)) 0) as [Hneg|Hpos].
    + cbn [print found_start]. rewrite Hf, orb_true_iff, andb_true_iff, Hi.
      rewrite Hb in Hneg.
      split; [tauto|]. intros [H|[H|[H _]]]; [tauto|tauto|lia].
    + rewrite IH, Hf, Hb, orb_true_iff, andb_true_iff, Hi.
      rewrite Hb in Hpos. tauto.
Qed.

End CheckBracesDetailFacts.

(** ** check_braces_handleMouseDown.py *)

Section CheckBracesHandleMouseDownFacts.

Import CheckBracesHandleMouseDown.

Lemma range_scan_char_balance (i : nat) (line : string) (st : state)
  (c : ascii) :
  balance (scan_char i line st c) = balance st + brace_balance [c].
Proof.
  unfold scan_char.
  destruct (char_cases c) as [[-> ->]|[[-> [-> ->]]|(Ho & Hc & -> & ->)]].
  - cbn. rewrite brace_balance_open. lia.
  - cbn [balance found_start]. rewrite brace_balance_close.
    destruct (found_start st && _); cbn; lia.
  - rewrite brace_balance_other by assumption. lia.
Qed.

Lemma range_scan_char_found_start (i : nat) (line : string) (st : state)
  (c : ascii) :
  found_start (scan_char i line st c) = found_start st || has_open [c].
Proof.
  unfold scan_char, has_open. cbn [existsb]. rewrite orb_false_r.
  rewrite (Ascii.eqb_sym "{" c).
  destruct (Ascii.eqb c "{"); cbn [found_start].
  - now rewrite orb_true_r.
  - rewrite orb_false_r. destruct (Ascii.eqb c "}"); [|reflexivity].
    cbn [found_start balance]. now destruct (found_start st && _).
Qed.

(** A character prints at most a zero-return event. *)
Lemma range_scan_char_out (i : nat) (line : string) (st : state) (c : ascii) :
  exists evs, out (scan_char i line st c) = out st ++ evs
              /\ existsb is_negative_report evs = false.
Proof.
  unfold scan_char.
  destruct (Ascii.eqb c "{"); [exists []; cbn; now rewrite app_nil_r|].
  destruct (Ascii.eqb c "}"); [|exists []; cbn; now rewrite app_nil_r].
  cbn [found_start balance].
  destruct (found_start st && _).
  - exists [HandlerClosed (i + 1) line]. now cbn.
  - exists []. cbn. now rewrite app_nil_r.
Qed.

Lemma range_scan_chars_facts (i : nat) (line : string) (cs : list ascii) :
  forall st : state,
    balance (scan_chars i line cs st) = balance st + brace_balance cs
    /\ found_start (scan_chars i line cs st) = found_start st || has_open cs
    /\ exists evs, out (scan_chars i line cs st) = out st ++ evs
                   /\ existsb is_negative_report evs = false.
Proof.
  unfold scan_chars. induction cs as [|c cs IH]; intros st; cbn [fold_left].
  - rewrite brace_balance_nil. repeat split; [lia|now rewrite orb_false_r|].
    exists []. now rewrite app_nil_r.
  - destruct (IH (scan_char i line st c)) as (Hb & Hf & evs & Ho & Hn).
    destruct (range_scan_char_out i line st c) as (evs0 & Ho0 & Hn0).
    rewrite Hb, Hf, Ho, range_scan_char_balance, range_scan_char_found_start.
    rewrite (brace_balance_cons c cs).
    change (c :: cs) with ([c] ++ cs). rewrite has_open_app.
    repeat split; [lia|now rewrite orb_assoc|].
    exists (evs0 ++ evs). rewrite Ho0, <- app_assoc, existsb_app, Hn0, Hn.
    now split.
Qed.

(** The test of line 23 after one more line. *)
Lemma halts_after_line (i : nat) (line : string) (st : state)
  (seen : list ascii) :
  halts_after (scan_line i line st) seen
  = halts_after st (chars line ++ seen).
Proof.
  unfold halts_after, scan_line.
  destruct (range_scan_chars_facts i line (chars line) st) as (-> & -> & _).
  rewrite has_open_app, brace_balance_app, orb_assoc, Z.add_assoc.
  reflexivity.
Qed.

Lemma halts_after_now (st : state) :
  found_start st && (balance st <? 0) = halts_after st [].
Proof.
  unfold halts_after. cbn [has_open]. rewrite brace_balance_nil.
  now rewrite orb_false_r, Z.add_0_r.
Qed.

Lemma skipn_nth_error {A : Type} (l : list A) :
  forall (a : nat) (x : A),
    nth_error l a = Some x -> skipn a l = x :: skipn (S a) l.
Proof.
  induction l as [|y l IH]; intros [|a] x H; try discriminate.
  - now injection H as ->.
  - cbn in H. apply IH in H. exact H.
Qed.

Lemma seen_cons (l0 : string) (rest : list string) (j : nat) :
  text (firstn (S (S j)) (l0 :: rest)) = chars l0 ++ text (firstn (S j) rest).
Proof. reflexivity. Qed.

(** The loop is left at the first line at whose end the test of line 23
    holds; until then only zero-return events are printed. *)
Lemma scan_range_halts (k : nat) :
  forall (a n : nat) (lines : list string) (st : state) (line : string),
    (k < n)%nat ->
    nth_error lines (a + k) = Some line ->
    (forall j, (j < k)%nat ->
       halts_after st (text (firstn (S j) (skipn a lines))) = false) ->
    halts_after st (text (firstn (S k) (skipn a lines))) = true ->
    exists evs,
      scan_range lines (seq a n) st
      = Finished (out st ++ evs ++ [BalanceNegative (a + k + 1)])
      /\ existsb is_negative_report evs = false.
Proof.
  induction k as [|k IH]; intros a n lines st line Hk Hnth Hpre Hhalt;
    (destruct n as [|n]; [lia|]); cbn [seq scan_range].
  - rewrite Nat.add_0_r in *. rewrite Hnth.
    rewrite (skipn_nth_error _ _ _ Hnth) in Hhalt.
    rewrite firstn_S_text in Hhalt.
    no_lines_left.
    rewrite <- halts_after_line with (i := a), <- halts_after_now in Hhalt.
    rewrite Hhalt.
    destruct (range_scan_chars_facts a line (chars line) st)
      as (_ & _ & evs & Ho & Hn).
    exists evs. split; [|exact Hn].
    cbn [print out]. unfold scan_line. now rewrite Ho, app_assoc.
  - destruct (nth_error lines a) as [l0|] eqn:E.
    2:{ apply nth_error_None in E.
        assert (nth_error lines (a + S k) <> None) as H by congruence.
        apply nth_error_Some in H. lia. }
    assert (H0 := Hpre 0%nat ltac:(lia)).
    rewrite (skipn_nth_error _ _ _ E) in H0, Hpre, Hhalt.
    rewrite firstn_S_text in H0.
    no_lines_left.
    rewrite <- halts_after_line with (i := a), <- halts_after_now in H0.
    rewrite H0.
    destruct (IH (S a) n lines (scan_line a l0 st) line) as (evs & Hr & Hn).
    + lia.
    + rewrite <- Hnth. f_equal. lia.
    + intros j Hj. rewrite halts_after_line, <- seen_cons.
      apply Hpre. lia.
    + now rewrite halts_after_line, <- seen_cons.
    + destruct (range_scan_chars_facts a l0 (chars l0) st)
        as (_ & _ & evs0 & Ho & Hn0).
      unfold scan_line in Hr at 2. rewrite Ho in Hr.
      exists (evs0 ++ evs). rewrite Hr, existsb_app, Hn0, Hn.
      split; [|reflexivity].
      replace (a + S k + 1)%nat with (S a + k + 1)%nat by lia.
      now rewrite <- !app_assoc.
Qed.

(** While the test of line 23 fails at every line end, nothing but
    zero-return events is printed. *)
Lemma scan_range_no_halt (n : nat) :
  forall (a : nat) (lines : list string) (st : state),
    (forall j, (j < n)%nat -> (a + j < length lines)%nat ->
       halts_after st (text (firstn (S j) (skipn a lines))) = false) ->
    exists evs,
      printed_of (scan_range lines (seq a n) st) = out st ++ evs
      /\ existsb is_negative_report evs = false.
Proof.
  induction n as [|n IH]; intros a lines st H; cbn [seq scan_range].
  - exists []. cbn. now rewrite app_nil_r.
  - destruct (nth_error lines a) as [l0|] eqn:E.
    2:{ exists []. cbn. now rewrite app_nil_r. }
    assert (Ha : (a < length lines)%nat)
      by (apply nth_error_Some; congruence).
    assert (H0 := H 0%nat ltac:(lia) ltac:(lia)).
    rewrite (skipn_nth_error _ _ _ E) in H0, H.
    rewrite firstn_S_text in H0.
    no_lines_left.
    rewrite <- halts_after_line with (i := a), <- halts_after_now in H0.
    rewrite H0.
    destruct (IH (S a) lines (scan_line a l0 st)) as (evs & Hr & Hn).
    + intros j Hj Hlen. rewrite halts_after_line, <- seen_cons.
      apply H; lia.
    + destruct (range_scan_chars_facts a l0 (chars l0) st)
        as (_ & _ & evs0 & Ho & Hn0).
      unfold scan_line in Hr at 2. rewrite Ho in Hr.
      exists (evs0 ++ evs). rewrite Hr, existsb_app, Hn0, Hn.
      split; [|reflexivity]. now rewrite <- app_assoc.
Qed.

(** The loop only looks at the lines whose indices it is given. *)
Lemma scan_range_agree (f1 f2 : list string) (idxs : list nat) :
  forall st : state,
    (forall i, In i idxs -> nth_error f1 i = nth_error f2 i) ->
    scan_range f1 idxs st = scan_range f2 idxs st.
Proof.
  induction idxs as [|i idxs IH]; intros st H; [reflexivity|].
  cbn [scan_range]. rewrite <- (H i) by now left.
  destruct (nth_error f1 i) as [line|]; [|reflexivity].
  destruct (found_start _ && _); [reflexivity|].
  apply IH. intros j Hj. apply H. now right.
Qed.

(** When the loop ends in the fault of [lines[i]]. *)
Lemma scan_range_index_error (n : nat) :
  forall (a : nat) (lines : list string) (st : state),
    (exists printed, scan_range lines (seq a n) st = IndexError printed)
    <-> ((length lines < a + n)%nat /\ (0 < n)%nat
         /\ forall j, (a + j < length lines)%nat ->
              halts_after st (text (firstn (S j) (skipn a lines))) = false).
Proof.
  induction n as [|n IH]; intros a lines st; cbn [seq scan_range].
  - split; [intros [p H]; discriminate|lia].
  - destruct (nth_error lines a) as [l0|] eqn:E.
    + assert (Ha : (a < length lines)%nat)
        by (apply nth_error_Some; congruence).
      rewrite (skipn_nth_error _ _ _ E).
      rewrite halts_after_now, halts_after_line, app_nil_r.
      destruct (halts_after st (chars l0)) eqn:Eh.
      * split; [intros [p H]; discriminate|].
        intros (_ & _ & H). specialize (H 0%nat ltac:(lia)).
        rewrite firstn_S_text in H.
        no_lines_left.
        rewrite app_nil_r in H. congruence.
      * rewrite IH. split.
        -- intros (Hlen & Hn & H). repeat split; [lia|lia|].
           intros [|j] Hj.
           ++ rewrite firstn_S_text.
              no_lines_left.
              now rewrite app_nil_r.
           ++ rewrite seen_cons, <- halts_after_line with (i := a).
              apply H. lia.
        -- intros (Hlen & _ & H). repeat split; [lia|lia|].
           intros j Hj. rewrite halts_after_line, <- seen_cons.
           apply H. lia.
    + apply nth_error_None in E. split.
      * intros _. repeat split; [lia|lia|]. intros j Hj. lia.
      * intros _. now exists (out st).
Qed.

End CheckBracesHandleMouseDownFacts.

(** ** fix_ribbon.py *)

Section ReFacts.

Import Re.

(** A match never ends before it starts, and a pattern with a consuming
    operation never matches the empty string. *)
Lemma exec_consumes (ops : pattern) :
  forall (prev : option ascii) (s : list ascii) (n : nat) (marks : list nat)
         (n' : nat) (marks' : list nat),
    exec ops prev s n marks = Some (n', marks') ->
    (n <= n')%nat /\ (existsb consumes ops = true -> (n < n')%nat).
Proof.
  induction ops as [|o ops IH]; intros prev s n marks n' marks' H.
  - cbn in H. injection H as <- <-. split; [lia|discriminate].
  - destruct o; cbn [exec] in H.
    + destruct s as [|x s]; [discriminate|].
      destruct (Ascii.eqb x c); [|discriminate].
      apply IH in H. split; [lia|intros _; lia].
    + destruct s as [|x s]; [discriminate|].
      destruct (cls x); [|discriminate].
      apply IH in H. split; [lia|intros _; lia].
    + revert H. generalize (run cls s) as j.
      induction j as [|j IHj]; intros H; [discriminate|].
      destruct (exec ops (nth_error s j) (skipn (S j) s) (n + S j) marks)
        as [r|] eqn:E.
      * injection H as ->. apply IH in E. split; [lia|intros _; lia].
      * now apply IHj.
    + destruct (xorb _ _); [|discriminate].
      apply IH in H. exact H.
    + apply IH in H. exact H.
Qed.

(** Where the pattern matches nowhere, [re.sub] returns the text as it is. *)
Lemma sub_from_no_match (p : pattern) (tpl : list titem) (s : list ascii) :
  forall prev : option ascii,
    search_from p prev s = false -> sub_from p tpl prev s 0 = s.
Proof.
  induction s as [|c s IH]; intros prev H; [reflexivity|].
  cbn [search_from] in H. cbn [sub_from].
  destruct (exec p prev (c :: s) 0 []); [discriminate|].
  now rewrite IH.
Qed.

(** Where [old] does not occur, [str.replace] returns the text as it is. *)
Lemma replace_from_no_match (old new s : list ascii) :
  contains_from old s = false -> replace_from old new s 0 = s.
Proof.
  induction s as [|c s IH]; intros H; [reflexivity|].
  cbn [contains_from] in H. apply orb_false_elim in H as [H1 H2].
  cbn [replace_from]. rewrite H1. now rewrite IH.
Qed.

End ReFacts.

Section FixRibbonFacts.

Import Re FixRibbon.

Lemma string_of_chars (s : string) : string_of_list_ascii (chars s) = s.
Proof. apply string_of_list_ascii_of_string. Qed.

(** A rule whose target does not occur leaves the text as it is. *)
Lemma apply_rule_no_match (content : string) (r : rule) :
  rule_matches content r = false -> apply_rule content r = content.
Proof.
  destruct r as [p repl|old new]; cbn [rule_matches apply_rule];
    unfold search, sub, contains, replace; intros H.
  - rewrite sub_from_no_match by exact H. apply string_of_chars.
  - rewrite replace_from_no_match by exact H. apply string_of_chars.
Qed.

Lemma apply_rules_no_match (rs : list rule) (content : string) :
  existsb (rule_matches content) rs = false ->
  fold_left apply_rule rs content = content.
Proof.
  induction rs as [|r rs IH]; intros H; [reflexivity|].
  cbn [existsb] in H. apply orb_false_elim in H as [Hr Hrs].
  cbn [fold_left]. rewrite apply_rule_no_match by exact Hr. now apply IH.
Qed.

(** Every rule of the script is of the kind the model covers. *)
Lemma rules_well_formed : forallb well_formed rules = true.
Proof. reflexivity. Qed.

(** No pattern of the script matches the empty string. *)
Lemma rule_patterns_consume (p : pattern) (repl : list titem) :
  In (Sub p repl) rules ->
  forall (prev : option ascii) (s : list ascii) (n : nat) (marks : list nat),
    exec p prev s 0 [] = Some (n, marks) -> (0 < n)%nat.
Proof.
  intros Hin prev s n marks H.
  pose proof rules_well_formed as Hwf. rewrite forallb_forall in Hwf.
  apply Hwf in Hin. cbn [well_formed] in Hin.
  apply exec_consumes in H as [_ H]. now apply H.
Qed.

End FixRibbonFacts.

(** * The claims *)

Section Claims.

Import Samples.

Local Open Scope string_scope.

(** ** C1 *)

(** Claim C1, counterexample.  The claim has the basic scanner report a line
    and halt as soon as the balance is below zero after any character.  On
    the one-line text "}{" the balance is -1 after the first character and 0
    after the second; the scanner tests it at the end of the line only,
    reports no line and prints the final balance. *)
Lemma check_braces_misses_mid_line_dip :
  is_readlines ["}{"] = true
  /\ CheckBraces.balance_history ["}{"] = [0; -1; 0]
  /\ brace_balance (firstn 1 (text ["}{"])) < 0
  /\ CheckBraces.check_braces ["}{"] = [FinalBalance 0].
Proof. repeat split. Qed.

(** Claim C1, amended.  The basic scanner tests the balance at the end of
    each line only.  At the first line at whose end the balance (the brace
    count of the text up to there) is below zero it reports that line and
    halts, and nothing else is printed.  When no line ends with the balance
    below zero, whatever the balance was inside the lines, no line is
    reported and the final balance is printed. *)
Theorem check_braces_reports_first_negative_line_end :
  forall lines : list string,
    (forall (k : nat) (line : string),
        nth_error lines k = Some line ->
        (forall j, (j < k)%nat ->
                   0 <= brace_balance (text (firstn (S j) lines))) ->
        brace_balance (text (firstn (S k) lines)) < 0 ->
        CheckBraces.check_braces lines = [WentNegative (k + 1) line])
    /\ ((forall j, (j < length lines)%nat ->
                   0 <= brace_balance (text (firstn (S j) lines))) ->
        CheckBraces.check_braces lines
        = [FinalBalance (brace_balance (text lines))]).
Proof.
  intros lines. unfold CheckBraces.check_braces. split.
  - intros k line Hnth Hpre Hneg.
    rewrite (scan_lines_first_negative k lines 0 0 line Hnth).
    + destruct (Z.geb_spec (0 + brace_balance (text (firstn (S k) lines))) 0);
        [lia|reflexivity].
    + intros j Hj. specialize (Hpre j Hj). lia.
    + lia.
  - intros Hpre. rewrite scan_lines_no_negative.
    + assert (Hlast : 0 <= brace_balance (text lines)).
      { destruct lines as [|l ls]; [now rewrite text_nil|].
        specialize (Hpre (length ls) ltac:(cbn; lia)).
        change (S (length ls)) with (length (l :: ls)) in Hpre.
        now rewrite firstn_all in Hpre. }
      destruct (Z.geb_spec (0 + brace_balance (text lines)) 0); [|lia].
      reflexivity.
    + intros j Hj. specialize (Hpre j Hj). lia.
Qed.

Lemma check_braces_reports_first_negative_line_end_witness :
  CheckBraces.check_braces (file_of ["{"; "} }"; "{"])
  = [WentNegative 2 (ln "} }")]
  /\ CheckBraces.check_braces (file_of ["{"; "}{}"; "}{"])
     = [FinalBalance (brace_balance (text (file_of ["{"; "}{}"; "}{"])))].
Proof.
  split.
  - apply (proj1 (check_braces_reports_first_negative_line_end
                    (file_of ["{"; "} }"; "{"])) 1%nat (ln "} }")).
    + reflexivity.
    + intros j Hj. assert (j = 0%nat) as -> by lia. vm_compute. discriminate.
    + vm_compute. reflexivity.
  - apply (proj2 (check_braces_reports_first_negative_line_end
                    (file_of ["{"; "}{}"; "}{"]))).
    intros j Hj. cbn in Hj.
    destruct j as [|[|[|j]]]; [vm_compute; discriminate ..|lia].
Defined.

(** ** C2 *)

(** Claim C2.  In the tracked scanner, a closing brace that is read while the
    flag is set and that brings the balance from 1 back to 0 prints the
    current line as potentially closing the construct, and the rest of the
    line is scanned on from there with the balance 0 and the flag still set;
    whatever a line printed, the next line is scanned unless the balance is
    below zero at the end of the line.  When "{ { } }" is the line the
    trigger fires on (line 138, after lines without braces), exactly one such
    event is printed, for that line. *)
Theorem zero_return_is_reported_and_scan_goes_on :
  (forall (i : nat) (line : string) (pre post : list ascii) (st : state),
      found_start (CheckBracesDetail.scan_chars i line pre st) = true ->
      balance (CheckBracesDetail.scan_chars i line pre st) = 1 ->
      CheckBracesDetail.scan_chars i line (pre ++ "}"%char :: post) st
      = CheckBracesDetail.scan_chars i line post
          {| balance := 0; found_start := true;
             out := out (CheckBracesDetail.scan_chars i line pre st)
                    ++ [PotentiallyClosed (i + 1) line] |})
  /\ (forall (i : nat) (line : string) (rest : list string) (st : state),
         0 <= balance (CheckBracesDetail.scan_line i line st) ->
         CheckBracesDetail.scan_lines i (line :: rest) st
         = CheckBracesDetail.scan_lines (S i) rest
             (CheckBracesDetail.scan_line i line st))
  /\ (forall pre : list string,
         length pre = 137%nat ->
         Forall (fun l => brace_free (chars l) = true) pre ->
         CheckBracesDetail.check_braces_detail (pre ++ ["{ { } }"])
         = [PotentiallyClosed 138 "{ { } }"]).
Proof.
  split; [|split].
  - intros i line pre post st Hf Hb.
    rewrite detail_scan_chars_app.
    unfold CheckBracesDetail.scan_chars at 1. cbn [fold_left].
    unfold CheckBracesDetail.scan_char at 2.
    change (Ascii.eqb "}" "{") with false. change (Ascii.eqb "}" "}") with true.
    cbn [balance found_start out]. rewrite Hf, Hb. reflexivity.
  - intros i line rest st Hb. cbn [CheckBracesDetail.scan_lines].
    destruct (Z.ltb_spec (balance (CheckBracesDetail.scan_line i line st)) 0);
      [lia|reflexivity].
  - intros pre Hlen Hfree.
    unfold CheckBracesDetail.check_braces_detail, CheckBracesDetail.final_state.
    rewrite detail_scan_lines_brace_free by (assumption || (cbn; lia)).
    rewrite Hlen. reflexivity.
Qed.

Lemma zero_return_is_reported_and_scan_goes_on_witness :
  CheckBracesDetail.scan_chars 137 "{ { } }" (chars "{ { } }") init
  = CheckBracesDetail.scan_chars 137 "{ { } }" []
      {| balance := 0; found_start := true;
         out := [PotentiallyClosed 138 "{ { } }"] |}
  /\ CheckBracesDetail.scan_lines 137 ["{ { } }"; "{"] init
     = CheckBracesDetail.scan_lines 138 ["{"]
         (CheckBracesDetail.scan_line 137 "{ { } }" init)
  /\ CheckBracesDetail.check_braces_detail (repeat (ln "") 137 ++ ["{ { } }"])
     = [PotentiallyClosed 138 "{ { } }"].
Proof.
  split; [|split].
  - apply (proj1 zero_return_is_reported_and_scan_goes_on
             137%nat "{ { } }" (chars "{ { } ") [] init); reflexivity.
  - apply (proj1 (proj2 zero_return_is_reported_and_scan_goes_on)
             137%nat "{ { } }" ["{"] init).
    vm_compute. discriminate.
  - apply (proj2 (proj2 zero_return_is_reported_and_scan_goes_on)
             (repeat (ln "") 137)).
    + reflexivity.
    + apply Forall_forall. intros l Hl. apply repeat_spec in Hl. now subst.
Defined.

(** ** C3 *)

Import CheckBracesHandleMouseDown.

Lemma halts_at_false_iff (lines : list string) (j : nat) :
  halts_at lines j = false
  <-> has_open (seen_to lines j) = false
      \/ 0 <= brace_balance (seen_to lines j).
Proof.
  unfold halts_at, halts_after. cbn [init found_start balance orb].
  rewrite andb_false_iff, Z.ltb_ge. reflexivity.
Qed.

Lemma halts_at_true_iff (lines : list string) (j : nat) :
  halts_at lines j = true
  <-> has_open (seen_to lines j) = true
      /\ brace_balance (seen_to lines j) < 0.
Proof.
  unfold halts_at, halts_after. cbn [init found_start balance orb].
  rewrite andb_true_iff, Z.ltb_lt. reflexivity.
Qed.

(** Claim C3, counterexample.  The claim has the range-bounded scanner run
    the logic of the other scanners on the range, reporting and halting
    whenever the balance is below zero, also before any opening brace of the
    range.  With a lone closing brace on line 374 the balance is -1 at the
    end of that line, and the range-bounded variant as the specification
    words it reports line 374; the script tests [found_start and balance < 0]
    and prints nothing. *)
Lemma range_scanner_ignores_negative_before_open :
  is_readlines lone_close_at_374 = true
  /\ length lone_close_at_374 = 988%nat
  /\ brace_balance (seen_to lone_close_at_374 0) = -1
  /\ spec_range_scanner lone_close_at_374 = Finished [BalanceNegative 374]
  /\ check_braces_handleMouseDown lone_close_at_374 = Finished [].
Proof. vm_compute. repeat split. Qed.

(** Claim C3, amended.  Inside the range the negative-balance detection is
    gated by the trigger: the scan reports the line and halts at the end of
    the first line of the range where an opening brace of the range has been
    read and the balance (the brace count of the range up to there) is below
    zero; line ends before it, among them those with a negative balance and
    no opening brace yet, are passed over, and only zero-return events are
    printed before the report.  When no line of the range ends that way, no
    negative balance is reported at all. *)
Theorem range_scanner_halts_at_first_gated_negative :
  forall lines : list string,
    (forall (k : nat) (line : string),
        (start_line - 1 + k < end_line)%nat ->
        nth_error lines (start_line - 1 + k) = Some line ->
        (forall j, (j < k)%nat ->
           has_open (seen_to lines j) = false
           \/ 0 <= brace_balance (seen_to lines j)) ->
        has_open (seen_to lines k) = true ->
        brace_balance (seen_to lines k) < 0 ->
        exists evs,
          check_braces_handleMouseDown lines
          = Finished (evs ++ [BalanceNegative (start_line + k)])
          /\ existsb is_negative_report evs = false)
    /\ ((forall j, (start_line - 1 + j < end_line)%nat ->
                   (start_line - 1 + j < length lines)%nat ->
           has_open (seen_to lines j) = false
           \/ 0 <= brace_balance (seen_to lines j)) ->
        existsb is_negative_report
          (printed_of (check_braces_handleMouseDown lines)) = false).
Proof.
  intros lines. split.
  - intros k line Hk Hnth Hpre Hopen Hneg.
    destruct (scan_range_halts k (start_line - 1)
                (end_line - (start_line - 1)) lines init line)
      as (evs & Hr & Hn).
    + unfold start_line, end_line in *. lia.
    + exact Hnth.
    + intros j Hj. apply halts_at_false_iff, Hpre, Hj.
    + apply halts_at_true_iff. now split.
    + exists evs. split; [|exact Hn].
      unfold check_braces_handleMouseDown, py_range. rewrite Hr.
      replace (start_line - 1 + k + 1)%nat with (start_line + k)%nat
        by (unfold start_line; lia).
      reflexivity.
  - intros H.
    destruct (scan_range_no_halt (end_line - (start_line - 1))
                (start_line - 1) lines init) as (evs & Hr & Hn).
    + intros j Hj Hlen. apply halts_at_false_iff, H; [|exact Hlen].
      unfold start_line, end_line in *. lia.
    + unfold check_braces_handleMouseDown, py_range. rewrite Hr. exact Hn.
Qed.

Lemma range_scanner_halts_at_first_gated_negative_witness :
  (exists evs,
      check_braces_handleMouseDown late_open_file
      = Finished (evs ++ [BalanceNegative (start_line + 2)])
      /\ existsb is_negative_report evs = false)
  /\ existsb is_negative_report
       (printed_of (check_braces_handleMouseDown truncated_file)) = false.
Proof.
  split.
  - apply (proj1 (range_scanner_halts_at_first_gated_negative late_open_file)
             2%nat (ln "}}")).
    + unfold start_line, end_line. lia.
    + reflexivity.
    + intros j Hj. destruct j as [|[|j]]; [left|right|lia].
      * reflexivity.
      * vm_compute. discriminate.
    + reflexivity.
    + vm_compute. reflexivity.
  - apply (proj2 (range_scanner_halts_at_first_gated_negative truncated_file)).
    intros j _ Hj. unfold truncated_file in Hj.
    rewrite length_app, repeat_length in Hj.
    unfold start_line in Hj. cbn in Hj.
    destruct j as [|[|j]]; [left|right|lia].
    + reflexivity.
    + vm_compute. discriminate.
Defined.

(** ** C4 *)

(** Claim C4.  Two files that agree on the lines 374 to 988 (they have the
    same line, or both have none, at each of these positions) make the
    range-bounded scanner print the same diagnostics and end the same way:
    what stands before line 374 or after line 988 has no effect. *)
Theorem range_scanner_depends_on_range_only :
  forall f1 f2 : list string,
    (forall i, (start_line - 1 <= i < end_line)%nat ->
               nth_error f1 i = nth_error f2 i) ->
    check_braces_handleMouseDown f1 = check_braces_handleMouseDown f2.
Proof.
  intros f1 f2 H. unfold check_braces_handleMouseDown.
  apply scan_range_agree. intros i Hi.
  unfold py_range in Hi. apply in_seq in Hi. apply H.
  unfold start_line, end_line in *. lia.
Qed.

Lemma range_scanner_depends_on_range_only_witness :
  check_braces_handleMouseDown padded_1 = check_braces_handleMouseDown padded_2.
Proof.
  apply (range_scanner_depends_on_range_only padded_1 padded_2).
  unfold start_line, end_line, padded_1, padded_2. intros i Hi.
  rewrite (nth_error_app2 (repeat (ln "}") 373)),
    (nth_error_app2 (repeat (ln "{{") 373)) by (rewrite repeat_length; lia).
  rewrite !repeat_length.
  assert (Hlen : length range_lines = 615%nat) by reflexivity.
  rewrite !nth_error_app1 by lia. reflexivity.
Defined.

(** ** C5 *)

Import FixRibbon.

(** Claim C5, counterexample.  [re.sub] replaces matches that do not overlap:
    in "a - b - c" the first rule rewrites "a - b" and goes on after it, so
    that "b - c" is left for a second pass.  The result of one pass still
    holds a target of the rule set, and a second pass changes it. *)
Lemma fix_ribbon_not_idempotent :
  fix_ribbon "a - b - c" = "a-b - c"
  /\ targets_remain (fix_ribbon "a - b - c") = true
  /\ fix_ribbon (fix_ribbon "a - b - c") = "a-b-c"
  /\ fix_ribbon (fix_ribbon "a - b - c") <> fix_ribbon "a - b - c".
Proof. vm_compute. repeat split. discriminate. Qed.

(** Claim C5, amended.  For every input whose result after one pass holds no
    target of the rule set (no match of a pattern, no occurrence of a replaced
    literal), applying the rule set twice yields the same as applying it
    once. *)
Theorem fix_ribbon_idempotent_when_no_target_remains :
  forall content : string,
    targets_remain (fix_ribbon content) = false ->
    fix_ribbon (fix_ribbon content) = fix_ribbon content.
Proof.
  intros content H. unfold fix_ribbon at 1.
  apply apply_rules_no_match. exact H.
Qed.

Lemma fix_ribbon_idempotent_when_no_target_remains_witness :
  fix_ribbon (fix_ribbon "hover: bg - [#333] p - 4")
  = fix_ribbon "hover: bg - [#333] p - 4".
Proof.
  apply (fix_ribbon_idempotent_when_no_target_remains
           "hover: bg - [#333] p - 4").
  vm_compute. reflexivity.
Defined.

(** ** C6 *)

(** Claim C6.  When no prefix of the text has more closing than opening
    braces and the whole text has as many of each, the basic scanner prints
    the final balance 0 and nothing else. *)
Theorem check_braces_balanced_input :
  forall lines : list string,
    (forall n, 0 <= brace_balance (firstn n (text lines))) ->
    brace_balance (text lines) = 0 ->
    CheckBraces.check_braces lines = [FinalBalance 0].
Proof.
  intros lines Hpre Htot. unfold CheckBraces.check_braces.
  rewrite scan_lines_no_negative.
  - rewrite Htot. reflexivity.
  - intros j _. rewrite text_firstn_prefix. specialize (Hpre
      (length (text (firstn (S j) lines)))). lia.
Qed.

Lemma check_braces_balanced_input_witness :
  CheckBraces.check_braces (file_of ["{ {"; "} }"]) = [FinalBalance 0].
Proof.
  apply (check_braces_balanced_input (file_of ["{ {"; "} }"])).
  - intros n.
    do 8 (destruct n as [|n]; [vm_compute; discriminate|]).
    destruct n; vm_compute; discriminate.
  - reflexivity.
Defined.

(** ** C7 *)

(** Claim C7, counterexample.  The claim has the flag set as soon as the scan
    reaches line 138.  Here the scan reaches line 138 and reads its closing
    brace, which brings the balance back to 0, but line 138 has no opening
    brace: the flag is not set and the zero-return is not reported. *)
Lemma found_start_not_set_without_open_on_138 :
  is_readlines closes_on_138 = true
  /\ length closes_on_138 = 138%nat
  /\ balance (CheckBracesDetail.scan_lines 0 (firstn 137 closes_on_138) init)
     = 1
  /\ balance (CheckBracesDetail.final_state closes_on_138) = 0
  /\ found_start (CheckBracesDetail.final_state closes_on_138) = false
  /\ CheckBracesDetail.check_braces_detail closes_on_138 = [].
Proof. vm_compute. repeat split. Qed.

(** Claim C7, amended.  The flag is set by an opening brace read on line 138
    and by nothing else, and once set it stays set: while line [i + 1] is
    scanned it becomes set only if that line is line 138 and an opening brace
    is read, and when the script ends it is set exactly if line 138 was
    reached (no earlier line ended with the balance below zero) and contains
    an opening brace. *)
Theorem found_start_set_by_open_brace_on_138 :
  (forall (i : nat) (line : string) (cs : list ascii) (st : state),
      found_start (CheckBracesDetail.scan_chars i line cs st)
      = found_start st || ((i + 1 =? 138)%nat && has_open cs))
  /\ (forall lines : list string,
         found_start (CheckBracesDetail.final_state lines) = true
         <-> exists line,
             nth_error lines 137 = Some line
             /\ has_open (chars line) = true
             /\ forall j, (j < 137)%nat ->
                  0 <= brace_balance (text (firstn (S j) lines))).
Proof.
  split; [intros; apply detail_scan_chars_found_start|].
  intros lines. unfold CheckBracesDetail.final_state.
  rewrite detail_scan_lines_found_start.
  unfold CheckBracesDetail.raises_flag. cbn [init found_start balance].
  split.
  - intros [H|(k & line & Hk & Hnth & Hopen & Hpre)]; [discriminate|].
    cbn in Hk. subst k. exists line.
    split; [exact Hnth|]. split; [exact Hopen|].
    intros j Hj. specialize (Hpre j Hj). lia.
  - intros (line & Hnth & Hopen & Hpre). right.
    exists 137%nat, line.
    split; [reflexivity|]. split; [exact Hnth|]. split; [exact Hopen|].
    intros j Hj. specialize (Hpre j Hj). lia.
Qed.

Lemma found_start_set_by_open_brace_on_138_witness :
  found_start (CheckBracesDetail.final_state opens_on_138) = true.
Proof.
  apply (proj2 (proj2 found_start_set_by_open_brace_on_138 opens_on_138)).
  exists (ln "{}"). split; [reflexivity|]. split; [reflexivity|].
  intros j Hj. apply Z.leb_le.
  apply (forallb_below
           (fun j => Z.leb 0 (brace_balance (text (firstn (S j) opens_on_138))))
           137); [vm_compute; reflexivity|exact Hj].
Defined.

(** ** C8 *)

(** Claim C8.  The rule set turns "panel - bg" into "panel-bg" and
    "bg - [#333]" into "bg-[#333]". *)
Theorem fix_ribbon_examples :
  fix_ribbon "panel - bg" = "panel-bg"
  /\ fix_ribbon "bg - [#333]" = "bg-[#333]".
Proof. vm_compute. split; reflexivity. Qed.

(** ** C9 *)

(** Claim C9.  In the basic scanner the variable [balance] starts at 0 and
    its value after the first [n] characters scanned is the number of opening
    braces minus the number of closing braces among the first [n] characters
    of the text.  These values go on to the one the loop is left with: there
    is one for every character of the text, or, when a line ends with the
    balance below zero, for every character up to the end of the first such
    line.  An opening brace adds one, a closing brace takes one off and any
    other character leaves the balance as it is, so that over any stretch of
    characters it moves by the brace count of that stretch.  The same count
    is kept by the two tracked scanners. *)
Theorem balance_is_brace_count_of_prefix :
  (forall lines : list string,
      nth_error (CheckBraces.balance_history lines) 0 = Some 0)
  /\ (forall (lines : list string) (n : nat) (b : Z),
         nth_error (CheckBraces.balance_history lines) n = Some b ->
         b = brace_balance (firstn n (text lines)))
  /\ (forall lines : list string,
         last (CheckBraces.balance_history lines) 0
         = fst (CheckBraces.scan_lines 0 lines 0))
  /\ (forall lines : list string,
         (forall j, (j < length lines)%nat ->
                    0 <= brace_balance (text (firstn (S j) lines))) ->
         length (CheckBraces.balance_history lines) = S (length (text lines)))
  /\ (forall (lines : list string) (k : nat) (line : string),
         nth_error lines k = Some line ->
         (forall j, (j < k)%nat ->
                    0 <= brace_balance (text (firstn (S j) lines))) ->
         brace_balance (text (firstn (S k) lines)) < 0 ->
         length (CheckBraces.balance_history lines)
         = S (length (text (firstn (S k) lines))))
  /\ (forall b : Z, CheckBraces.scan_char b "{" = b + 1)
  /\ (forall b : Z, CheckBraces.scan_char b "}" = b - 1)
  /\ (forall (b : Z) (c : ascii),
         c <> "{"%char -> c <> "}"%char -> CheckBraces.scan_char b c = b)
  /\ (forall (cs : list ascii) (b : Z),
         fold_left CheckBraces.scan_char cs b = b + brace_balance cs)
  /\ (forall (i : nat) (line : string) (cs : list ascii) (st : state),
         balance (CheckBracesDetail.scan_chars i line cs st)
         = balance st + brace_balance cs)
  /\ (forall (i : nat) (line : string) (cs : list ascii) (st : state),
         balance (CheckBracesHandleMouseDown.scan_chars i line cs st)
         = balance st + brace_balance cs).
Proof.
  repeat split.
  - intros lines [|n] b H.
    + cbn in H. injection H as <-. reflexivity.
    + cbn in H. apply loop_history_nth in H. lia.
  - intros lines. unfold CheckBraces.balance_history.
    rewrite last_cons_default. apply loop_history_last.
  - intros lines H. unfold CheckBraces.balance_history. cbn [length].
    f_equal. apply loop_history_length_all.
    intros j Hj. specialize (H j Hj). lia.
  - intros lines k line Hnth Hpre Hneg.
    unfold CheckBraces.balance_history. cbn [length]. f_equal.
    apply (loop_history_length_halt k lines 0 line Hnth); [|lia].
    intros j Hj. specialize (Hpre j Hj). lia.
  - intros b c Ho Hc. rewrite basic_scan_char_balance.
    rewrite brace_balance_other by assumption. lia.
  - intros. apply basic_fold_balance.
  - intros. apply detail_scan_chars_balance.
  - intros. apply range_scan_chars_facts.
Qed.

Lemma balance_is_brace_count_of_prefix_witness :
  (-1) = brace_balance (firstn 5 (text (file_of ["{ }"; "}"; "{"]))).
Proof.
  apply (proj1 (proj2 balance_is_brace_count_of_prefix)
           (file_of ["{ }"; "}"; "{"]) 5%nat).
  reflexivity.
Defined.

(** ** C10 *)

(** Claim C10, counterexample.  The claim has every file of fewer than 988
    lines end in the index fault.  On this file of 374 lines the scan halts
    on line 374, by the [break] of line 25, before any index is out of
    range. *)
Lemma short_file_without_index_error :
  is_readlines short_file = true
  /\ (length short_file < end_line)%nat
  /\ check_braces_handleMouseDown short_file
     = Finished [HandlerClosed 374 (ln "{}}"); BalanceNegative 374].
Proof. split; [|split; [apply Nat.ltb_lt|]]; reflexivity. Qed.

(** Claim C10, amended.  The scanner indexes the list of lines at the
    positions 373 to 987 with no bounds check.  With at least 988 lines every
    access succeeds and the run ends normally.  The run ends in the index
    fault exactly when the file has fewer than 988 lines and the scan does
    not halt (an opening brace read and the balance below zero at the end of
    a line) on one of the lines of the range that the file has. *)
Theorem range_scanner_index_error :
  (forall lines : list string,
      (end_line <= length lines)%nat ->
      exists printed, check_braces_handleMouseDown lines = Finished printed)
  /\ (forall lines : list string,
         (exists printed,
             check_braces_handleMouseDown lines = IndexError printed)
         <-> ((length lines < end_line)%nat
              /\ forall j, (start_line - 1 + j < length lines)%nat ->
                   has_open (seen_to lines j) = false
                   \/ 0 <= brace_balance (seen_to lines j))).
Proof.
  assert (Hiff : forall lines : list string,
             (exists printed,
                 check_braces_handleMouseDown lines = IndexError printed)
             <-> ((length lines < end_line)%nat
                  /\ forall j, (start_line - 1 + j < length lines)%nat ->
                       has_open (seen_to lines j) = false
                       \/ 0 <= brace_balance (seen_to lines j))).
  { intros lines. unfold check_braces_handleMouseDown, py_range.
    rewrite scan_range_index_error. split.
    - intros (Hlen & _ & H). split.
      + unfold start_line, end_line in *. lia.
      + intros j Hj. apply halts_at_false_iff. now apply H.
    - intros (Hlen & H). repeat split.
      + unfold start_line, end_line in *. lia.
      + unfold start_line, end_line. lia.
      + intros j Hj. apply halts_at_false_iff. now apply H. }
  split; [|exact Hiff].
  intros lines Hlen.
  destruct (check_braces_handleMouseDown lines) as [p|p] eqn:E.
  - now exists p.
  - assert (Hex : exists printed,
               check_braces_handleMouseDown lines = IndexError printed)
      by (rewrite E; now exists p).
    apply Hiff in Hex. lia.
Qed.

Lemma range_scanner_index_error_witness :
  (exists printed, check_braces_handleMouseDown padded_1 = Finished printed)
  /\ (exists printed,
         check_braces_handleMouseDown truncated_file
         = IndexError printed).
Proof.
  split.
  - apply (proj1 range_scanner_index_error padded_1).
    apply Nat.leb_le. reflexivity.
  - apply (proj2 (proj2 range_scanner_index_error truncated_file)).
    split.
    + apply Nat.ltb_lt. reflexivity.
    + intros j Hj. unfold truncated_file in Hj.
      rewrite length_app, repeat_length in Hj.
      unfold start_line in Hj. cbn in Hj.
      destruct j as [|[|j]]; [left|right|lia].
      * reflexivity.
      * vm_compute. discriminate.
Defined.

End Claims.

(** * Further properties of the scripts *)

(** ** check_braces.py: what is printed, and what is never read *)

Section CheckBracesMore.

Import CheckBraces.

(** Either some line is the first to end below zero, or none does. *)
Lemma first_negative_or_none (lines : list string) :
  forall b : Z,
    (exists (k : nat) (line : string),
        nth_error lines k = Some line
        /\ (forall j, (j < k)%nat ->
                      0 <= b + brace_balance (text (firstn (S j) lines)))
        /\ b + brace_balance (text (firstn (S k) lines)) < 0)
    \/ (forall j, (j < length lines)%nat ->
                  0 <= b + brace_balance (text (firstn (S j) lines))).
Proof.
  induction lines as [|line rest IH]; intros b.
  - right. intros j Hj. cbn in Hj. lia.
  - destruct (Z.lt_ge_cases (b + brace_balance (chars line)) 0) as [Hneg|Hpos].
    + left. exists 0%nat, line. split; [reflexivity|]. split; [lia|].
      rewrite firstn_S_text, brace_balance_app. no_lines_left.
      rewrite brace_balance_nil. lia.
    + destruct (IH (b + brace_balance (chars line)))
        as [(k & l & Hnth & Hpre & Hneg)|Hall].
      * left. exists (S k), l. split; [exact Hnth|]. split.
        -- intros [|j] Hj; rewrite firstn_S_text, brace_balance_app.
           ++ no_lines_left. rewrite brace_balance_nil. lia.
           ++ specialize (Hpre j ltac:(lia)). lia.
        -- rewrite firstn_S_text, brace_balance_app. lia.
      * right. intros [|j] Hj; rewrite firstn_S_text, brace_balance_app.
        -- no_lines_left. rewrite brace_balance_nil. lia.
        -- cbn in Hj. specialize (Hall j ltac:(lia)). lia.
Qed.

(** Every run of the basic scanner prints exactly one line: the report of a
    line of the file, at whose end the brace count of the text is below zero,
    or the final balance, which is then the brace count of the whole text and
    is not below zero. *)
Theorem check_braces_prints_one_line :
  forall lines : list string,
    (exists (n : nat) (line : string),
        check_braces lines = [WentNegative n line]
        /\ (1 <= n)%nat
        /\ nth_error lines (n - 1) = Some line
        /\ brace_balance (text (firstn n lines)) < 0)
    \/ (check_braces lines = [FinalBalance (brace_balance (text lines))]
        /\ 0 <= brace_balance (text lines)).
Proof.
  intros lines. unfold check_braces.
  destruct (first_negative_or_none lines 0)
    as [(k & line & Hnth & Hpre & Hneg)|Hall].
  - left. exists (S k), line.
    rewrite (scan_lines_first_negative k lines 0 0 line Hnth Hpre Hneg).
    destruct (Z.geb_spec (0 + brace_balance (text (firstn (S k) lines))) 0);
      [lia|].
    replace (0 + k + 1)%nat with (S k) by lia.
    replace (S k - 1)%nat with k by lia.
    repeat split; [lia|exact Hnth|lia].
  - right. rewrite (scan_lines_no_negative lines 0 0 Hall).
    assert (Hlast : 0 <= brace_balance (text lines)).
    { destruct lines as [|l ls]; [now rewrite text_nil|].
      specialize (Hall (length ls) ltac:(cbn; lia)).
      change (S (length ls)) with (length (l :: ls)) in Hall.
      rewrite firstn_all in Hall. lia. }
    destruct (Z.geb_spec (0 + brace_balance (text lines)) 0); [|lia].
    split; [reflexivity|exact Hlast].
Qed.

(** The scan halts at the line it reports: with the lines up to that one
    kept, the rest of the file can be anything. *)
Theorem check_braces_ignores_lines_after_report :
  forall (lines tail : list string) (n : nat) (line : string),
    check_braces lines = [WentNegative n line] ->
    check_braces (firstn n lines ++ tail) = [WentNegative n line].
Proof.
  intros lines tail n line H. unfold check_braces in *.
  destruct (first_negative_or_none lines 0)
    as [(k & l & Hnth & Hpre & Hneg)|Hall].
  - rewrite (scan_lines_first_negative k lines 0 0 l Hnth Hpre Hneg) in H.
    destruct (Z.geb_spec (0 + brace_balance (text (firstn (S k) lines))) 0);
      [lia|].
    injection H as Hn Hl. subst l.
    assert (n = S k) as -> by lia. clear Hn.
    assert (Hk : (k < length lines)%nat)
      by (apply nth_error_Some; congruence).
    assert (Hfirst : forall j, (j <= k)%nat ->
               firstn (S j) (firstn (S k) lines ++ tail)
               = firstn (S j) lines).
    { intros j Hj. rewrite firstn_app, length_firstn.
      replace (S j - Init.Nat.min (S k) (length lines))%nat with 0%nat by lia.
      rewrite firstn_O, app_nil_r, firstn_firstn. f_equal. lia. }
    rewrite (scan_lines_first_negative k _ 0 0 line).
    + rewrite Hfirst by lia.
      destruct (Z.geb_spec (0 + brace_balance (text (firstn (S k) lines))) 0);
        [lia|].
      now replace (0 + k + 1)%nat with (S k) by lia.
    + rewrite nth_error_app1 by (rewrite length_firstn; lia).
      rewrite nth_error_firstn.
      destruct (Nat.ltb_spec k (S k)); [exact Hnth|lia].
    + intros j Hj. rewrite Hfirst by lia. now apply Hpre.
    + now rewrite Hfirst by lia.
  - rewrite (scan_lines_no_negative lines 0 0 Hall) in H.
    destruct (0 + brace_balance (text lines) >=? 0); discriminate.
Qed.

Lemma check_braces_ignores_lines_after_report_witness :
  check_braces MoreSamples.closes_first = [WentNegative 1 (Samples.ln "}")]
  /\ check_braces
       (firstn 1 MoreSamples.closes_first ++ MoreSamples.other_lines)%list
     = [WentNegative 1 (Samples.ln "}")].
Proof.
  assert (H : check_braces MoreSamples.closes_first
              = [WentNegative 1 (Samples.ln "}")]) by reflexivity.
  split; [exact H|].
  exact (check_braces_ignores_lines_after_report
           MoreSamples.closes_first MoreSamples.other_lines 1
           (Samples.ln "}") H).
Defined.

End CheckBracesMore.

(** ** The tracked scanners: zero-return events *)

Section ZeroReturns.

Import Tracking.

Lemma length_filter_map {A B : Type} (f : B -> bool) (g : A -> B)
  (l : list A) :
  length (filter f (map g l)) = length (filter (fun x => f (g x)) l).
Proof.
  induction l as [|x l IH]; [reflexivity|].
  cbn. destruct (f (g x)); cbn; now rewrite IH.
Qed.

Lemma has_open_single (c : ascii) : has_open [c] = Ascii.eqb c "{".
Proof.
  unfold has_open. cbn. now rewrite orb_false_r, Ascii.eqb_sym.
Qed.

(** A position after the first character, seen from the rest of the text. *)
Lemma zero_return_S (trig fs : bool) (b : Z) (c : ascii) (cs : list ascii)
  (j : nat) :
  zero_return trig fs b (c :: cs) (S j)
  = zero_return trig (fs || (trig && has_open [c])) (b + brace_balance [c])
      cs j.
Proof.
  unfold zero_return. cbn [nth_error].
  change (firstn (S j) (c :: cs)) with ([c] ++ firstn j cs).
  change (firstn (S (S j)) (c :: cs)) with ([c] ++ firstn (S j) cs).
  rewrite has_open_app, brace_balance_app, Z.add_assoc.
  f_equal. f_equal.
  destruct fs, trig, (has_open [c]), (has_open (firstn j cs)); reflexivity.
Qed.

(** The first position. *)
Lemma zero_return_0 (trig fs : bool) (b : Z) (c : ascii) (cs : list ascii) :
  zero_return trig fs b (c :: cs) 0
  = Ascii.eqb c "}" && fs && (b - 1 =? 0).
Proof.
  unfold zero_return. cbn [nth_error firstn].
  change (has_open []) with false. rewrite andb_false_r, orb_false_r.
  destruct (Ascii.eqb_spec c "}") as [->|Hc]; [|reflexivity].
  now rewrite brace_balance_close.
Qed.

Lemma zero_returns_cons (trig fs : bool) (b : Z) (c : ascii)
  (cs : list ascii) :
  zero_returns trig fs b (c :: cs)
  = Nat.add (if Ascii.eqb c "}" && fs && (b - 1 =? 0) then 1%nat else 0%nat)
      (zero_returns trig (fs || (trig && has_open [c]))
         (b + brace_balance [c]) cs).
Proof.
  unfold zero_returns. cbn [length seq filter].
  rewrite zero_return_0, <- seq_shift.
  destruct (Ascii.eqb c "}" && fs && (b - 1 =? 0)); cbn [length Nat.add];
    rewrite length_filter_map,
      (filter_ext _ _ (zero_return_S trig fs b c cs)); reflexivity.
Qed.

(** An event can only be counted when the flag is set or gets set. *)
Lemma zero_returns_pos (trig fs : bool) (b : Z) (cs : list ascii) :
  (0 < zero_returns trig fs b cs)%nat ->
  fs || (trig && has_open cs) = true.
Proof.
  revert fs b. induction cs as [|c cs IH]; intros fs b H.
  - cbn in H. lia.
  - rewrite zero_returns_cons in H.
    change (c :: cs) with ([c] ++ cs). rewrite has_open_app.
    destruct (Ascii.eqb c "}" && fs && (b - 1 =? 0)) eqn:E.
    + apply andb_prop in E as [E _]. apply andb_prop in E as [_ ->].
      reflexivity.
    + apply IH in H.
      destruct fs, trig, (has_open [c]), (has_open cs);
        try reflexivity; discriminate.
Qed.

Lemma no_negative_in_repeat (d : diag) (m : nat) :
  is_negative_report d = false ->
  existsb is_negative_report (repeat d m) = false.
Proof.
  intros H. induction m as [|m IH]; [reflexivity|].
  cbn. now rewrite H, IH.
Qed.

(** The events of a stretch of a line in check_braces_detail.py. *)
Lemma detail_scan_chars_out :
  forall (i : nat) (line : string) (cs : list ascii) (st : state),
    out (CheckBracesDetail.scan_chars i line cs st)
    = out st
      ++ repeat (PotentiallyClosed (i + 1) line)
           (zero_returns (i + 1 =? 138)%nat (found_start st) (balance st) cs).
Proof.
  intros i line cs. unfold CheckBracesDetail.scan_chars.
  induction cs as [|c cs IH]; intros st; cbn [fold_left].
  - cbn. now rewrite app_nil_r.
  - rewrite IH, zero_returns_cons.
    change (fold_left (CheckBracesDetail.scan_char i line) [c] st)
      with (CheckBracesDetail.scan_char i line st c) in *.
    pose proof (detail_scan_chars_found_start i line [c] st) as Hf.
    pose proof (detail_scan_chars_balance i line [c] st) as Hb.
    unfold CheckBracesDetail.scan_chars in Hf, Hb. cbn [fold_left] in Hf, Hb.
    rewrite Hf, Hb, repeat_app, app_assoc. f_equal. f_equal.
    unfold CheckBracesDetail.scan_char.
    destruct (char_cases c) as [[-> ->]|[[-> [-> ->]]|(Ho & Hc & -> & ->)]].
    + cbn. now rewrite app_nil_r.
    + cbn [balance found_start out andb].
      destruct (found_start st && (balance st - 1 =? 0)); cbn;
        [reflexivity|now rewrite app_nil_r].
    + cbn. now rewrite app_nil_r.
Qed.

(** The events of a stretch of a line in check_braces_handleMouseDown.py. *)
Lemma range_scan_chars_out :
  forall (i : nat) (line : string) (cs : list ascii) (st : state),
    out (CheckBracesHandleMouseDown.scan_chars i line cs st)
    = out st
      ++ repeat (HandlerClosed (i + 1) line)
           (zero_returns true (found_start st) (balance st) cs).
Proof.
  intros i line cs. unfold CheckBracesHandleMouseDown.scan_chars.
  induction cs as [|c cs IH]; intros st; cbn [fold_left].
  - cbn. now rewrite app_nil_r.
  - rewrite IH, zero_returns_cons.
    rewrite range_scan_char_found_start, range_scan_char_balance.
    cbn [andb]. rewrite repeat_app, app_assoc. f_equal. f_equal.
    unfold CheckBracesHandleMouseDown.scan_char.
    destruct (char_cases c) as [[-> ->]|[[-> [-> ->]]|(Ho & Hc & -> & ->)]].
    + cbn. now rewrite app_nil_r.
    + cbn [balance found_start out andb].
      destruct (found_start st && (balance st - 1 =? 0)); cbn;
        [reflexivity|now rewrite app_nil_r].
    + cbn. now rewrite app_nil_r.
Qed.

(** What check_braces_detail.py prints while it scans a stretch of line
    [i + 1]: the line, once for each closing brace that brings the balance
    back to 0 while the flag is set, the flag being set by the opening braces
    of line 138 (lines 12-19). *)
Theorem detail_line_reports_zero_returns :
  forall (i : nat) (line : string) (cs : list ascii) (st : state),
    out (CheckBracesDetail.scan_chars i line cs st)
    = out st
      ++ repeat (PotentiallyClosed (i + 1) line)
           (zero_returns (i + 1 =? 138)%nat (found_start st) (balance st) cs).
Proof. exact detail_scan_chars_out. Qed.

(** What check_braces_handleMouseDown.py prints while it scans a stretch of
    line [i + 1]: the line, once for each closing brace that brings the
    balance back to 0 after an opening brace has been read in the range
    (lines 15-21). *)
Theorem range_line_reports_zero_returns :
  forall (i : nat) (line : string) (cs : list ascii) (st : state),
    out (CheckBracesHandleMouseDown.scan_chars i line cs st)
    = out st
      ++ repeat (HandlerClosed (i + 1) line)
           (zero_returns true (found_start st) (balance st) cs).
Proof. exact range_scan_chars_out. Qed.

End ZeroReturns.

(** ** check_braces_detail.py: the report of a negative balance *)

Section CheckBracesDetailMore.

Import Tracking CheckBracesDetail.

Lemma detail_scan_line_out (i : nat) (line : string) (st : state) :
  exists evs,
    out (scan_line i line st) = out st ++ evs
    /\ existsb is_negative_report evs = false.
Proof.
  unfold scan_line. rewrite detail_scan_chars_out.
  eexists. split; [reflexivity|]. now apply no_negative_in_repeat.
Qed.

(** While no line ends below zero, no negative balance is reported. *)
Lemma detail_scan_lines_quiet (lines : list string) :
  forall (i : nat) (st : state),
    (forall j, (j < length lines)%nat ->
       0 <= balance st + brace_balance (text (firstn (S j) lines))) ->
    exists evs,
      out (scan_lines i lines st) = out st ++ evs
      /\ existsb is_negative_report evs = false.
Proof.
  induction lines as [|line rest IH]; intros i st H.
  - exists []. cbn. now rewrite app_nil_r.
  - cbn [scan_lines].
    pose proof (detail_scan_chars_balance i line (chars line) st) as Hb.
    fold (scan_line i line st) in Hb.
    assert (H0 := H 0%nat ltac:(cbn; lia)).
    rewrite firstn_S_text, brace_balance_app in H0. no_lines_left.
    rewrite brace_balance_nil in H0.
    destruct (Z.ltb_spec (balance (scan_line i line st)) 0); [lia|].
    destruct (detail_scan_line_out i line st) as (evs0 & Ho & Hn0).
    destruct (IH (S i) (scan_line i line st)) as (evs & Hr & Hn).
    + intros j Hj. specialize (H (S j) ltac:(cbn; lia)).
      rewrite firstn_S_text, brace_balance_app in H. lia.
    + exists (evs0 ++ evs). rewrite Hr, Ho, <- app_assoc, existsb_app, Hn0, Hn.
      now split.
Qed.

(** The first line that ends below zero is reported last. *)
Lemma detail_scan_lines_report (k : nat) :
  forall (lines : list string) (i : nat) (st : state) (line : string),
    nth_error lines k = Some line ->
    (forall j, (j < k)%nat ->
       0 <= balance st + brace_balance (text (firstn (S j) lines))) ->
    balance st + brace_balance (text (firstn (S k) lines)) < 0 ->
    exists evs,
      out (scan_lines i lines st)
      = out st ++ evs ++ [BalanceNegative (i + k + 1)]
      /\ existsb is_negative_report evs = false.
Proof.
  induction k as [|k IH]; intros lines i st line Hnth Hpre Hneg;
    destruct lines as [|l0 rest]; try discriminate; cbn in Hnth;
    cbn [scan_lines];
    pose proof (detail_scan_chars_balance i l0 (chars l0) st) as Hb;
    fold (scan_line i l0 st) in Hb;
    destruct (detail_scan_line_out i l0 st) as (evs0 & Ho & Hn0);
    rewrite firstn_S_text, brace_balance_app in Hneg.
  - no_lines_left. rewrite brace_balance_nil in Hneg.
    destruct (Z.ltb_spec (balance (scan_line i l0 st)) 0); [|lia].
    exists evs0. cbn [print out]. rewrite Ho, Nat.add_0_r, <- app_assoc.
    now split.
  - assert (H0 := Hpre 0%nat ltac:(lia)).
    rewrite firstn_S_text, brace_balance_app in H0. no_lines_left.
    rewrite brace_balance_nil in H0.
    destruct (Z.ltb_spec (balance (scan_line i l0 st)) 0); [lia|].
    destruct (IH rest (S i) (scan_line i l0 st) line Hnth)
      as (evs & Hr & Hn).
    + intros j Hj. specialize (Hpre (S j) ltac:(lia)).
      rewrite firstn_S_text, brace_balance_app in Hpre. lia.
    + lia.
    + exists (evs0 ++ evs). rewrite Hr, Ho, existsb_app, Hn0, Hn.
      split; [|reflexivity].
      replace (S i + k + 1)%nat with (i + S k + 1)%nat by lia.
      now rewrite <- !app_assoc.
Qed.

Lemma not_in_without_negative (evs : list diag) (n : nat) :
  existsb is_negative_report evs = false -> ~ In (BalanceNegative n) evs.
Proof.
  intros H Hin.
  assert (existsb is_negative_report evs = true) as Ht
    by (apply existsb_exists; now exists (BalanceNegative n)).
  congruence.
Qed.

(** The tracked scanner reports a negative balance for the line that the
    basic scanner reports, and for no other. *)
Theorem detail_negative_report_is_that_of_check_braces :
  forall (lines : list string) (n : nat),
    In (BalanceNegative n) (check_braces_detail lines)
    <-> exists line, CheckBraces.check_braces lines = [WentNegative n line].
Proof.
  intros lines n.
  unfold check_braces_detail, final_state, CheckBraces.check_braces.
  destruct (first_negative_or_none lines 0)
    as [(k & l & Hnth & Hpre & Hneg)|Hall].
  - rewrite (scan_lines_first_negative k lines 0 0 l Hnth Hpre Hneg).
    destruct (detail_scan_lines_report k lines 0 init l Hnth Hpre Hneg)
      as (evs & -> & Hn).
    destruct (Z.geb_spec (0 + brace_balance (text (firstn (S k) lines))) 0);
      [lia|].
    cbn [init out app]. split.
    + intros Hin. apply in_app_or in Hin as [Hin|[Hin|[]]].
      * now apply not_in_without_negative in Hin.
      * injection Hin as <-. now exists l.
    + intros (line & Heq). injection Heq as <- _.
      apply in_or_app. right. now left.
  - rewrite (scan_lines_no_negative lines 0 0 Hall).
    destruct (detail_scan_lines_quiet lines 0 init Hall) as (evs & -> & Hn).
    cbn [init out app]. split.
    + intros Hin. now apply not_in_without_negative in Hin.
    + intros (line & Heq).
      destruct (0 + brace_balance (text lines) >=? 0); discriminate.
Qed.

Lemma detail_negative_report_is_that_of_check_braces_witness :
  exists line,
    CheckBraces.check_braces MoreSamples.closes_first = [WentNegative 1 line].
Proof.
  apply (proj1 (detail_negative_report_is_that_of_check_braces
                  MoreSamples.closes_first 1)).
  vm_compute. now left.
Defined.

(** Where the events of a run come from. *)
Lemma detail_scan_lines_events (lines : list string) :
  forall (i : nat) (st : state) (e : diag),
    In e (out (scan_lines i lines st)) ->
    In e (out st)
    \/ (exists k, (k < length lines)%nat /\ e = BalanceNegative (i + k + 1))
    \/ (exists (k : nat) (line : string),
           nth_error lines k = Some line
           /\ e = PotentiallyClosed (i + k + 1) line
           /\ found_start (scan_lines i lines st) = true
           /\ (found_start st = true \/ (138 <= i + k + 1)%nat)).
Proof.
  induction lines as [|line rest IH]; intros i st e Hin; [now left|].
  cbn [scan_lines] in *.
  pose proof (detail_scan_chars_found_start i line (chars line) st) as Hf.
  fold (scan_line i line st) in Hf.
  assert (Hline : In e (out (scan_line i line st)) ->
            In e (out st)
            \/ (e = PotentiallyClosed (i + 0 + 1) line
                /\ found_start (scan_line i line st) = true
                /\ (found_start st = true \/ (138 <= i + 0 + 1)%nat))).
  { unfold scan_line at 1. rewrite detail_scan_chars_out.
    intros H. apply in_app_or in H as [H|H]; [now left|right].
    assert (Hm : (0 < zero_returns (i + 1 =? 138)%nat (found_start st)
                        (balance st) (chars line))%nat).
    { destruct (zero_returns _ _ _ _); [destruct H|lia]. }
    apply repeat_spec in H. apply zero_returns_pos in Hm.
    rewrite Nat.add_0_r. split; [exact H|]. split; [now rewrite Hf|].
    apply orb_prop in Hm as [Hm|Hm]; [now left|right].
    apply andb_prop in Hm as [Hm _]. apply Nat.eqb_eq in Hm. lia. }
  destruct (balance (scan_line i line st) <? 0).
  - cbn [print out found_start] in *.
    apply in_app_or in Hin as [Hin|[<-|[]]].
    + destruct (Hline Hin) as [H|(He & Hfs & Hor)]; [now left|].
      right. right. exists 0%nat, line. now repeat split.
    + right. left. exists 0%nat. split; [cbn; lia|].
      now rewrite Nat.add_0_r.
  - destruct (IH (S i) (scan_line i line st) e Hin)
      as [H|[(k & Hk & He)|(k & l & Hnth & He & Hfs & Hor)]].
    + destruct (Hline H) as [H'|(He & Hfs & Hor)]; [now left|].
      right. right. exists 0%nat, line.
      split; [reflexivity|]. split; [exact He|]. split; [|exact Hor].
      apply detail_scan_lines_found_start. now left.
    + right. left. exists (S k). split; [cbn; lia|].
      rewrite He. f_equal. lia.
    + right. right. exists (S k), l.
      split; [exact Hnth|]. split; [rewrite He; f_equal; lia|].
      split; [exact Hfs|].
      destruct Hor as [Hor|Hor]; [|right; lia].
      rewrite Hf in Hor. apply orb_prop in Hor as [Hor|Hor]; [now left|].
      apply andb_prop in Hor as [Hor _]. apply Nat.eqb_eq in Hor.
      right. lia.
Qed.

(** A line is only ever reported as potentially closing the construct when
    line 138 of the file has an opening brace; it is then line 138 or a
    later one, and the text printed with its number is that line of the
    file. *)
Theorem detail_closures_start_at_line_138 :
  forall (lines : list string) (n : nat) (line : string),
    In (PotentiallyClosed n line) (check_braces_detail lines) ->
    (138 <= n)%nat
    /\ nth_error lines (n - 1) = Some line
    /\ exists l138,
        nth_error lines 137 = Some l138 /\ has_open (chars l138) = true.
Proof.
  intros lines n line Hin. unfold check_braces_detail, final_state in Hin.
  apply detail_scan_lines_events in Hin
    as [[]|[(k & _ & He)|(k & l & Hnth & He & Hfs & Hor)]];
    [discriminate|].
  injection He as -> ->. cbn [init found_start] in Hor.
  destruct Hor as [Hor|Hor]; [discriminate|].
  split; [lia|]. split.
  - now replace (k + 1 - 1)%nat with k by lia.
  - apply detail_scan_lines_found_start in Hfs
      as [Hfs|(k' & l' & Hk' & Hnth' & Hopen & _)]; [discriminate|].
    cbn in Hk'. subst k'. now exists l'.
Qed.

Lemma detail_closures_start_at_line_138_witness :
  (138 <= 139)%nat
  /\ nth_error Samples.opens_on_138 (139 - 1) = Some (Samples.ln "}")
  /\ exists l138,
      nth_error Samples.opens_on_138 137 = Some l138
      /\ has_open (chars l138) = true.
Proof.
  apply (detail_closures_start_at_line_138 Samples.opens_on_138 139
           (Samples.ln "}")).
  vm_compute. now left.
Defined.

End CheckBracesDetailMore.

(** ** check_braces_handleMouseDown.py: the whole output *)

Section CheckBracesHandleMouseDownMore.

Import Tracking CheckBracesHandleMouseDown.

Lemma closures_from_0 (st : state) (a : nat) (lines : list string)
  (l0 : string) :
  nth_error lines a = Some l0 ->
  out (scan_line a l0 st) = out st ++ closures_from st a lines 0.
Proof.
  intros E. unfold closures_from, scan_line.
  rewrite range_scan_chars_out, !Nat.add_0_r.
  rewrite (nth_error_nth _ _ _ E). cbn [firstn].
  rewrite text_nil, brace_balance_nil, Z.add_0_r.
  change (has_open []) with false. now rewrite orb_false_r.
Qed.

Lemma closures_from_S (st : state) (a : nat) (lines : list string)
  (l0 : string) (j : nat) :
  nth_error lines a = Some l0 ->
  closures_from st a lines (S j)
  = closures_from (scan_line a l0 st) (S a) lines j.
Proof.
  intros E. unfold closures_from, scan_line.
  destruct (range_scan_chars_facts a l0 (chars l0) st) as (-> & -> & _).
  rewrite (skipn_nth_error _ _ _ E).
  change (firstn (S j) (l0 :: skipn (S a) lines))
    with (l0 :: firstn j (skipn (S a) lines)).
  rewrite text_cons, has_open_app, brace_balance_app, orb_assoc, Z.add_assoc.
  replace (a + S j)%nat with (S a + j)%nat by lia. reflexivity.
Qed.

Lemma flat_map_seq_S {A : Type} (f : nat -> list A) (n : nat) :
  flat_map f (seq 0 (S n)) = f 0%nat ++ flat_map (fun j => f (S j)) (seq 0 n).
Proof.
  cbn [seq flat_map]. f_equal. rewrite <- seq_shift.
  induction (seq 0 n) as [|x l IH]; [reflexivity|].
  cbn. now rewrite IH.
Qed.

(** The script as the loop over its range. *)
Lemma check_braces_handleMouseDown_loop (lines : list string) :
  check_braces_handleMouseDown lines
  = scan_range lines (seq (start_line - 1) (end_line - (start_line - 1))) init.
Proof. reflexivity. Qed.

(** A loop that does not halt prints the events of its lines, one line after
    the other. *)
Lemma scan_range_output (n : nat) :
  forall (a : nat) (lines : list string) (st : state),
    (a + n <= length lines)%nat ->
    (forall j, (j < n)%nat ->
       halts_after st (text (firstn (S j) (skipn a lines))) = false) ->
    scan_range lines (seq a n) st
    = Finished (out st ++ flat_map (closures_from st a lines) (seq 0 n)).
Proof.
  induction n as [|n IH]; intros a lines st Hlen H.
  - cbn. now rewrite app_nil_r.
  - rewrite flat_map_seq_S. cbn [seq scan_range].
    destruct (nth_error lines a) as [l0|] eqn:E.
    2:{ apply nth_error_None in E. lia. }
    assert (H0 := H 0%nat ltac:(lia)).
    rewrite (skipn_nth_error _ _ _ E) in H0, H.
    rewrite firstn_S_text in H0. no_lines_left.
    rewrite <- halts_after_line with (i := a), <- halts_after_now in H0.
    rewrite H0, IH.
    + rewrite (closures_from_0 st a lines l0 E), <- app_assoc.
      do 3 f_equal. apply flat_map_ext. intros j.
      symmetry. now apply closures_from_S.
    + lia.
    + intros j Hj. rewrite halts_after_line, <- seen_cons. apply H. lia.
Qed.

(** A loop that halts at its [k]-th line prints the events of the lines up to
    that one, and then the report. *)
Lemma scan_range_output_halting (k : nat) :
  forall (a n : nat) (lines : list string) (st : state) (line : string),
    (k < n)%nat ->
    nth_error lines (a + k) = Some line ->
    (forall j, (j < k)%nat ->
       halts_after st (text (firstn (S j) (skipn a lines))) = false) ->
    halts_after st (text (firstn (S k) (skipn a lines))) = true ->
    scan_range lines (seq a n) st
    = Finished (out st ++ flat_map (closures_from st a lines) (seq 0 (S k))
                ++ [BalanceNegative (a + k + 1)]).
Proof.
  induction k as [|k IH]; intros a n lines st line Hk Hnth Hpre Hhalt;
    (destruct n as [|n]; [lia|]); rewrite flat_map_seq_S;
    cbn [seq scan_range].
  - rewrite Nat.add_0_r in *. rewrite Hnth.
    rewrite (skipn_nth_error _ _ _ Hnth) in Hhalt.
    rewrite firstn_S_text in Hhalt. no_lines_left.
    rewrite <- halts_after_line with (i := a), <- halts_after_now in Hhalt.
    rewrite Hhalt. cbn [print out flat_map].
    rewrite (closures_from_0 st a lines line Hnth), app_nil_r.
    now rewrite <- app_assoc.
  - destruct (nth_error lines a) as [l0|] eqn:E.
    2:{ apply nth_error_None in E.
        assert (nth_error lines (a + S k) <> None) as H by congruence.
        apply nth_error_Some in H. lia. }
    assert (H0 := Hpre 0%nat ltac:(lia)).
    rewrite (skipn_nth_error _ _ _ E) in H0, Hpre, Hhalt.
    rewrite firstn_S_text in H0. no_lines_left.
    rewrite <- halts_after_line with (i := a), <- halts_after_now in H0.
    rewrite H0, (IH (S a) n lines (scan_line a l0 st) line).
    + rewrite (closures_from_0 st a lines l0 E).
      rewrite <- !app_assoc.
      replace (S a + k + 1)%nat with (a + S k + 1)%nat by lia.
      do 3 f_equal. f_equal. apply flat_map_ext. intros j.
      symmetry. now apply closures_from_S.
    + lia.
    + rewrite <- Hnth. f_equal. lia.
    + intros j Hj. rewrite halts_after_line, <- seen_cons. apply Hpre. lia.
    + now rewrite halts_after_line, <- seen_cons.
Qed.

(** A loop that runs out of lines before it halts prints the events of the
    lines there are, and ends on the index that has no line. *)
Lemma scan_range_output_short (n : nat) :
  forall (a : nat) (lines : list string) (st : state),
    (0 < n)%nat ->
    (length lines < a + n)%nat ->
    (forall j, (j < length lines - a)%nat ->
       halts_after st (text (firstn (S j) (skipn a lines))) = false) ->
    scan_range lines (seq a n) st
    = IndexError (out st ++ flat_map (closures_from st a lines)
                              (seq 0 (length lines - a))).
Proof.
  induction n as [|n IH]; intros a lines st Hn Hlen H; [lia|].
  cbn [seq scan_range].
  destruct (nth_error lines a) as [l0|] eqn:E.
  - assert (Ha : (a < length lines)%nat)
      by (apply nth_error_Some; congruence).
    replace (length lines - a)%nat with (S (length lines - S a)) in * by lia.
    rewrite flat_map_seq_S.
    assert (H0 := H 0%nat ltac:(lia)).
    rewrite (skipn_nth_error _ _ _ E) in H0, H.
    rewrite firstn_S_text in H0. no_lines_left.
    rewrite <- halts_after_line with (i := a), <- halts_after_now in H0.
    rewrite H0, IH.
    + rewrite (closures_from_0 st a lines l0 E), <- app_assoc.
      do 3 f_equal. apply flat_map_ext. intros j.
      symmetry. now apply closures_from_S.
    + lia.
    + lia.
    + intros j Hj. rewrite halts_after_line, <- seen_cons. apply H. lia.
  - apply nth_error_None in E.
    replace (length lines - a)%nat with 0%nat by lia.
    cbn. now rewrite app_nil_r.
Qed.

Lemma closures_from_init (lines : list string) (k : nat) :
  closures_from init (start_line - 1) lines k = range_closures lines k.
Proof.
  unfold closures_from, range_closures. cbn [init found_start balance orb].
  rewrite Z.add_0_l.
  replace (start_line - 1 + k + 1)%nat with (start_line + k)%nat
    by (unfold start_line; lia).
  reflexivity.
Qed.

(** The whole output of check_braces_handleMouseDown.py.  On a file of at
    least 988 lines in which no line of the range ends with an opening brace
    read and the balance below zero, the run prints, for each line of the
    range in turn, its zero-return events and nothing else.  When line
    [start_line + k] is the first to end that way, it prints the events of
    the lines up to that one, then the negative balance at that line, and
    stops. *)
Theorem range_scanner_output :
  forall lines : list string,
    ((end_line <= length lines)%nat ->
     (forall j, (start_line - 1 + j < end_line)%nat ->
        has_open (seen_to lines j) = false
        \/ 0 <= brace_balance (seen_to lines j)) ->
     check_braces_handleMouseDown lines
     = Finished (flat_map (range_closures lines)
                   (seq 0 (end_line - (start_line - 1)))))
    /\ (forall (k : nat) (line : string),
           (start_line - 1 + k < end_line)%nat ->
           nth_error lines (start_line - 1 + k) = Some line ->
           (forall j, (j < k)%nat ->
              has_open (seen_to lines j) = false
              \/ 0 <= brace_balance (seen_to lines j)) ->
           has_open (seen_to lines k) = true ->
           brace_balance (seen_to lines k) < 0 ->
           check_braces_handleMouseDown lines
           = Finished (flat_map (range_closures lines) (seq 0 (S k))
                       ++ [BalanceNegative (start_line + k)])).
Proof.
  intros lines. rewrite check_braces_handleMouseDown_loop. split.
  - intros Hlen H. rewrite scan_range_output.
    + rewrite (flat_map_ext _ _ (closures_from_init lines)). reflexivity.
    + unfold start_line, end_line in *. lia.
    + intros j Hj. apply halts_at_false_iff, H.
      unfold start_line, end_line in *. lia.
  - intros k line Hk Hnth Hpre Hopen Hneg.
    rewrite (scan_range_output_halting k _ _ lines init line).
    + rewrite (flat_map_ext _ _ (closures_from_init lines)).
      replace (start_line - 1 + k + 1)%nat with (start_line + k)%nat
        by (unfold start_line; lia).
      reflexivity.
    + unfold start_line, end_line in *. lia.
    + exact Hnth.
    + intros j Hj. apply halts_at_false_iff, Hpre, Hj.
    + apply halts_at_true_iff. now split.
Qed.

Lemma range_scanner_output_witness :
  check_braces_handleMouseDown Samples.padded_1
  = Finished (flat_map (range_closures Samples.padded_1)
                (seq 0 (end_line - (start_line - 1))))
  /\ check_braces_handleMouseDown Samples.late_open_file
     = Finished (flat_map (range_closures Samples.late_open_file) (seq 0 3)
                 ++ [BalanceNegative (start_line + 2)]).
Proof.
  split.
  - apply (proj1 (range_scanner_output Samples.padded_1)).
    + apply Nat.leb_le. vm_compute. reflexivity.
    + intros j Hj. right. apply Z.leb_le.
      apply (forallb_below
               (fun j => Z.leb 0 (brace_balance (seen_to Samples.padded_1 j)))
               615); [vm_compute; reflexivity|].
      unfold start_line, end_line in Hj. lia.
  - apply (proj2 (range_scanner_output Samples.late_open_file) 2%nat
             (Samples.ln "}}")).
    + unfold start_line, end_line. lia.
    + vm_compute. reflexivity.
    + intros j Hj. destruct j as [|[|j]]; [left|right|lia].
      * vm_compute. reflexivity.
      * apply Z.leb_le. vm_compute. reflexivity.
    + vm_compute. reflexivity.
    + apply Z.ltb_lt. vm_compute. reflexivity.
Defined.

(** The output of check_braces_handleMouseDown.py on a file that is too
    short.  On a file of fewer than 988 lines in which no line of the range
    ends with an opening brace read and the balance below zero, the run
    prints, for each line from line 374 on, its zero-return events, and then
    ends with the IndexError of the first line that is not there. *)
Theorem range_scanner_output_on_short_file :
  forall lines : list string,
    (length lines < end_line)%nat ->
    (forall j, (start_line - 1 + j < length lines)%nat ->
       has_open (seen_to lines j) = false
       \/ 0 <= brace_balance (seen_to lines j)) ->
    check_braces_handleMouseDown lines
    = IndexError (flat_map (range_closures lines)
                    (seq 0 (length lines - (start_line - 1)))).
Proof.
  intros lines Hlen H. rewrite check_braces_handleMouseDown_loop.
  rewrite scan_range_output_short.
  - rewrite (flat_map_ext _ _ (closures_from_init lines)). reflexivity.
  - unfold start_line, end_line. lia.
  - unfold start_line, end_line in *. lia.
  - intros j Hj. apply halts_at_false_iff, H.
    unfold start_line, end_line in *. lia.
Qed.

Lemma range_scanner_output_on_short_file_witness :
  check_braces_handleMouseDown Samples.truncated_file
  = IndexError (flat_map (range_closures Samples.truncated_file)
                  (seq 0 (length Samples.truncated_file - (start_line - 1)))).
Proof.
  apply (range_scanner_output_on_short_file Samples.truncated_file).
  - apply Nat.ltb_lt. vm_compute. reflexivity.
  - intros j Hj.
    assert (Hlen : length Samples.truncated_file = 375%nat) by reflexivity.
    rewrite Hlen in Hj. unfold start_line in Hj.
    destruct j as [|[|j]]; [left|right|lia].
    + vm_compute. reflexivity.
    + apply Z.leb_le. vm_compute. reflexivity.
Defined.

(** Where the events of a loop come from. *)
Lemma scan_range_events (n : nat) :
  forall (a : nat) (lines : list string) (st : state) (e : diag),
    In e (printed_of (scan_range lines (seq a n) st)) ->
    In e (out st)
    \/ exists k,
        (k < n)%nat
        /\ (a + k < length lines)%nat
        /\ (e = BalanceNegative (a + k + 1)
            \/ exists line,
                nth_error lines (a + k) = Some line
                /\ e = HandlerClosed (a + k + 1) line).
Proof.
  induction n as [|n IH]; intros a lines st e Hin; [now left|].
  cbn [seq scan_range] in Hin.
  destruct (nth_error lines a) as [l0|] eqn:E; [|now left].
  assert (Ha : (a < length lines)%nat) by (apply nth_error_Some; congruence).
  assert (Hline : In e (out (scan_line a l0 st)) ->
            In e (out st) \/ e = HandlerClosed (a + 0 + 1) l0).
  { unfold scan_line. rewrite range_scan_chars_out, Nat.add_0_r.
    intros H. apply in_app_or in H as [H|H]; [now left|right].
    now apply repeat_spec in H. }
  destruct (found_start _ && _).
  - cbn [printed_of print out] in Hin.
    apply in_app_or in Hin as [Hin|[<-|[]]].
    + destruct (Hline Hin) as [H|H]; [now left|right].
      exists 0%nat. rewrite Nat.add_0_r in *.
      repeat split; [lia|exact Ha|]. right. now exists l0.
    + right. exists 0%nat. rewrite !Nat.add_0_r.
      repeat split; [lia|exact Ha|]. now left.
  - apply IH in Hin as [Hin|(k & Hk & Hlen & He)].
    + destruct (Hline Hin) as [H|H]; [now left|right].
      exists 0%nat. rewrite Nat.add_0_r in *.
      repeat split; [lia|exact Ha|]. right. now exists l0.
    + right. exists (S k).
      replace (a + S k)%nat with (S a + k)%nat by lia.
      repeat split; [lia|exact Hlen|exact He].
Qed.

(** Whatever the file, every line number the range-bounded scanner prints is
    a line of the file between [start_line] and [end_line], and the text
    printed with the number of a closing line is that line of the file. *)
Theorem range_scanner_reports_lines_of_the_range :
  forall (lines : list string) (e : diag),
    In e (printed_of (check_braces_handleMouseDown lines)) ->
    exists n,
      (start_line <= n <= end_line)%nat
      /\ (n <= length lines)%nat
      /\ (e = BalanceNegative n
          \/ exists line,
              nth_error lines (n - 1) = Some line
              /\ e = HandlerClosed n line).
Proof.
  intros lines e Hin. rewrite check_braces_handleMouseDown_loop in Hin.
  apply scan_range_events in Hin as [[]|(k & Hk & Hlen & He)].
  pose proof (eq_refl : start_line = 374%nat) as Hs.
  pose proof (eq_refl : end_line = 988%nat) as Hend.
  exists (start_line + k)%nat.
  replace (start_line - 1 + k + 1)%nat with (start_line + k)%nat in He by lia.
  replace (start_line + k - 1)%nat with (start_line - 1 + k)%nat by lia.
  split; [lia|]. split; [lia|exact He].
Qed.

Lemma range_scanner_reports_lines_of_the_range_witness :
  exists n,
    (start_line <= n <= end_line)%nat
    /\ (n <= length Samples.late_open_file)%nat
    /\ (BalanceNegative 376 = BalanceNegative n
        \/ exists line,
            nth_error Samples.late_open_file (n - 1) = Some line
            /\ BalanceNegative 376 = HandlerClosed n line).
Proof.
  apply (range_scanner_reports_lines_of_the_range Samples.late_open_file
           (BalanceNegative 376)).
  vm_compute. now left.
Defined.

End CheckBracesHandleMouseDownMore.

(** ** check_braces_detail.py: the whole output *)

Section CheckBracesDetailOutput.

Import Tracking CheckBracesDetail.

Lemma flag_in_late (ls : list string) :
  forall i, (137 < i)%nat -> flag_in i ls = false.
Proof.
  induction ls as [|l rest IH]; intros i Hi; [reflexivity|].
  cbn [flag_in]. rewrite IH by lia.
  destruct (Nat.eqb_spec (i + 1) 138); [lia|reflexivity].
Qed.

(** The flag is up after [j] lines when line 138 is one of them and has an
    opening brace. *)
Lemma flag_in_firstn (ls : list string) :
  forall i j, (i <= 137)%nat ->
    flag_in i (firstn j ls)
    = (137 - i <? j)%nat && has_open (chars (nth (137 - i) ls ""%string)).
Proof.
  induction ls as [|l rest IH]; intros i j Hi.
  - rewrite firstn_nil. cbn [flag_in].
    replace (nth (137 - i) [] ""%string) with ""%string
      by now destruct (137 - i)%nat.
    change (has_open (chars "")) with false. now rewrite andb_false_r.
  - destruct j as [|j]; cbn [firstn flag_in].
    + now destruct (Nat.ltb_spec (137 - i) 0); [lia|].
    + destruct (Nat.eq_dec i 137) as [->|Hne].
      * rewrite flag_in_late by lia.
        destruct (Nat.eqb_spec (137 + 1) 138); [|lia].
        replace (137 - 137)%nat with 0%nat by lia. cbn [nth].
        destruct (Nat.ltb_spec 0 (S j)); [|lia].
        cbn [andb]. now rewrite orb_false_r.
      * destruct (Nat.eqb_spec (i + 1) 138); [lia|]. cbn [andb orb].
        rewrite IH by lia.
        replace (137 - i)%nat with (S (137 - S i)) by lia. reflexivity.
Qed.

Lemma detail_closures_from_0 (st : state) (i : nat) (l0 : string)
  (rest : list string) :
  out (scan_line i l0 st) = out st ++ detail_closures_from st i (l0 :: rest) 0.
Proof.
  unfold detail_closures_from, scan_line.
  rewrite detail_scan_chars_out, !Nat.add_0_r. cbn [firstn nth flag_in].
  now rewrite text_nil, brace_balance_nil, Z.add_0_r, orb_false_r.
Qed.

Lemma detail_closures_from_S (st : state) (i : nat) (l0 : string)
  (rest : list string) (j : nat) :
  detail_closures_from st i (l0 :: rest) (S j)
  = detail_closures_from (scan_line i l0 st) (S i) rest j.
Proof.
  unfold detail_closures_from, scan_line.
  rewrite detail_scan_chars_found_start, detail_scan_chars_balance.
  cbn [firstn nth flag_in].
  rewrite text_cons, brace_balance_app, orb_assoc, Z.add_assoc.
  replace (i + S j + 1)%nat with (S i + j + 1)%nat by lia. reflexivity.
Qed.

(** A scan in which no line ends below zero prints the events of its lines,
    one line after the other. *)
Lemma detail_scan_lines_output (lines : list string) :
  forall (i : nat) (st : state),
    (forall j, (j < length lines)%nat ->
       0 <= balance st + brace_balance (text (firstn (S j) lines))) ->
    out (scan_lines i lines st)
    = out st
      ++ flat_map (detail_closures_from st i lines) (seq 0 (length lines)).
Proof.
  induction lines as [|l0 rest IH]; intros i st H.
  - cbn. now rewrite app_nil_r.
  - cbn [scan_lines length]. rewrite flat_map_seq_S.
    pose proof (detail_scan_chars_balance i l0 (chars l0) st) as Hb.
    fold (scan_line i l0 st) in Hb.
    assert (H0 := H 0%nat ltac:(cbn; lia)).
    rewrite firstn_S_text, brace_balance_app in H0. no_lines_left.
    rewrite brace_balance_nil in H0.
    destruct (Z.ltb_spec (balance (scan_line i l0 st)) 0); [lia|].
    rewrite IH.
    + rewrite (detail_closures_from_0 st i l0 rest), <- app_assoc.
      do 2 f_equal. apply flat_map_ext. intros j.
      symmetry. apply detail_closures_from_S.
    + intros j Hj. specialize (H (S j) ltac:(cbn; lia)).
      rewrite firstn_S_text, brace_balance_app in H. lia.
Qed.

(** A scan that halts at its [k]-th line prints the events of the lines up to
    that one, and then the report. *)
Lemma detail_scan_lines_output_halting (k : nat) :
  forall (lines : list string) (i : nat) (st : state) (line : string),
    nth_error lines k = Some line ->
    (forall j, (j < k)%nat ->
       0 <= balance st + brace_balance (text (firstn (S j) lines))) ->
    balance st + brace_balance (text (firstn (S k) lines)) < 0 ->
    out (scan_lines i lines st)
    = out st
      ++ flat_map (detail_closures_from st i lines) (seq 0 (S k))
      ++ [BalanceNegative (i + k + 1)].
Proof.
  induction k as [|k IH]; intros lines i st line Hnth Hpre Hneg;
    destruct lines as [|l0 rest]; try discriminate; cbn in Hnth;
    cbn [scan_lines]; rewrite flat_map_seq_S;
    pose proof (detail_scan_chars_balance i l0 (chars l0) st) as Hb;
    fold (scan_line i l0 st) in Hb;
    rewrite firstn_S_text, brace_balance_app in Hneg.
  - no_lines_left. rewrite brace_balance_nil in Hneg.
    destruct (Z.ltb_spec (balance (scan_line i l0 st)) 0); [|lia].
    cbn [print out seq flat_map].
    rewrite (detail_closures_from_0 st i l0 rest), Nat.add_0_r, app_nil_r.
    now rewrite <- app_assoc.
  - assert (H0 := Hpre 0%nat ltac:(lia)).
    rewrite firstn_S_text, brace_balance_app in H0. no_lines_left.
    rewrite brace_balance_nil in H0.
    destruct (Z.ltb_spec (balance (scan_line i l0 st)) 0); [lia|].
    rewrite (IH rest (S i) (scan_line i l0 st) line Hnth).
    + rewrite (detail_closures_from_0 st i l0 rest), <- !app_assoc.
      replace (S i + k + 1)%nat with (i + S k + 1)%nat by lia.
      do 2 f_equal. f_equal. apply flat_map_ext. intros j.
      symmetry. apply detail_closures_from_S.
    + intros j Hj. specialize (Hpre (S j) ltac:(lia)).
      rewrite firstn_S_text, brace_balance_app in Hpre. lia.
    + lia.
Qed.

Lemma detail_closures_from_init (lines : list string) (k : nat) :
  detail_closures_from init 0 lines k = detail_closures lines k.
Proof.
  unfold detail_closures_from, detail_closures.
  cbn [init found_start balance orb].
  rewrite flag_in_firstn by lia. now rewrite Nat.sub_0_r, Z.add_0_l.
Qed.

(** The whole output of check_braces_detail.py.  On a file in which no line
    ends with the balance below zero, the run prints, for each line in turn,
    its zero-return events and nothing else.  When the line of index [k] is
    the first to end with the balance below zero, it prints the events of
    the lines up to that one, then the negative balance at that line, and
    stops. *)
Theorem detail_scanner_output :
  forall lines : list string,
    ((forall j, (j < length lines)%nat ->
        0 <= brace_balance (text (firstn (S j) lines))) ->
     check_braces_detail lines
     = flat_map (detail_closures lines) (seq 0 (length lines)))
    /\ (forall (k : nat) (line : string),
           nth_error lines k = Some line ->
           (forall j, (j < k)%nat ->
              0 <= brace_balance (text (firstn (S j) lines))) ->
           brace_balance (text (firstn (S k) lines)) < 0 ->
           check_braces_detail lines
           = flat_map (detail_closures lines) (seq 0 (S k))
             ++ [BalanceNegative (k + 1)]).
Proof.
  intros lines. unfold check_braces_detail, final_state. split.
  - intros H. rewrite detail_scan_lines_output.
    + rewrite (flat_map_ext _ _ (detail_closures_from_init lines)).
      reflexivity.
    + intros j Hj. cbn [init balance]. rewrite Z.add_0_l. now apply H.
  - intros k line Hnth Hpre Hneg.
    rewrite (detail_scan_lines_output_halting k lines 0 init line Hnth).
    + rewrite (flat_map_ext _ _ (detail_closures_from_init lines)).
      reflexivity.
    + intros j Hj. cbn [init balance]. rewrite Z.add_0_l. now apply Hpre.
    + cbn [init balance]. now rewrite Z.add_0_l.
Qed.

Lemma detail_scanner_output_witness :
  check_braces_detail Samples.opens_on_138
  = flat_map (detail_closures Samples.opens_on_138)
      (seq 0 (length Samples.opens_on_138))
  /\ check_braces_detail MoreSamples.closes_first
     = flat_map (detail_closures MoreSamples.closes_first) (seq 0 1)
       ++ [BalanceNegative (0 + 1)].
Proof.
  split.
  - apply (proj1 (detail_scanner_output Samples.opens_on_138)).
    intros j Hj. apply Z.leb_le.
    apply (forallb_below
             (fun j => Z.leb 0 (brace_balance
                                  (text (firstn (S j) Samples.opens_on_138))))
             139); [vm_compute; reflexivity|exact Hj].
  - apply (proj2 (detail_scanner_output MoreSamples.closes_first) 0%nat
             (Samples.ln "}")).
    + reflexivity.
    + intros j Hj. lia.
    + apply Z.ltb_lt. vm_compute. reflexivity.
Defined.

End CheckBracesDetailOutput.

(** ** The matching engine, one operation at a time *)

Section ExecSteps.

Import Re Shape.

(** The characters that a greedy repeat can take are characters of its
    class. *)
Lemma run_firstn (cls : ascii -> bool) (s : list ascii) :
  forall j, (j <= run cls s)%nat ->
    forallb cls (firstn j s) = true /\ length (firstn j s) = j.
Proof.
  induction s as [|c s IH]; intros j Hj.
  - cbn in Hj. assert (j = 0%nat) as -> by lia. now split.
  - destruct j as [|j]; [now split|].
    cbn [run] in Hj. destruct (cls c) eqn:E; [|lia].
    destruct (IH j ltac:(lia)) as [Hall Hlen].
    cbn [firstn forallb length]. now rewrite E, Hall, Hlen.
Qed.

(** A matched repeat took a non-empty stretch of characters of its class,
    and the rest of the pattern matched what follows. *)
Lemma exec_repeat_inv (cls : ascii -> bool) (k : pattern)
  (prev : option ascii) (s : list ascii) (n : nat) (marks : list nat)
  (r : nat * list nat) :
  exec (MAX_REPEAT cls :: k) prev s n marks = Some r ->
  exists (w rest : list ascii) (prev' : option ascii),
    s = w ++ rest /\ w <> [] /\ forallb cls w = true
    /\ exec k prev' rest (n + length w) marks = Some r.
Proof.
  cbn [exec].
  assert (H : forall j, (j <= run cls s)%nat ->
    (fix back (j : nat) : option (nat * list nat) :=
       match j with
       | 0%nat => None
       | S j' =>
           match exec k (nth_error s j') (skipn j s) (n + j) marks with
           | Some r => Some r
           | None => back j'
           end
       end) j = Some r ->
    exists (w rest : list ascii) (prev' : option ascii),
      s = w ++ rest /\ w <> [] /\ forallb cls w = true
      /\ exec k prev' rest (n + length w) marks = Some r).
  { induction j as [|j IHj]; intros Hj H; [discriminate|].
    destruct (exec k (nth_error s j) (skipn (S j) s) (n + S j) marks)
      as [r'|] eqn:E.
    - injection H as ->.
      destruct (run_firstn cls s (S j) Hj) as [Hall Hlen].
      exists (firstn (S j) s), (skipn (S j) s), (nth_error s j).
      rewrite firstn_skipn, Hlen. repeat split; try assumption.
      intros Hnil. rewrite Hnil in Hlen. discriminate.
    - apply IHj; [lia|exact H]. }
  apply H. lia.
Qed.

Lemma exec_literal_inv (c : ascii) (k : pattern) (prev : option ascii)
  (s : list ascii) (n : nat) (marks : list nat) (r : nat * list nat) :
  exec (LITERAL c :: k) prev s n marks = Some r ->
  exists rest, s = c :: rest /\ exec k (Some c) rest (S n) marks = Some r.
Proof.
  cbn [exec]. destruct s as [|x s]; [discriminate|].
  destruct (Ascii.eqb_spec x c) as [->|]; [|discriminate].
  intros H. now exists s.
Qed.

Lemma exec_in_inv (cls : ascii -> bool) (k : pattern) (prev : option ascii)
  (s : list ascii) (n : nat) (marks : list nat) (r : nat * list nat) :
  exec (IN cls :: k) prev s n marks = Some r ->
  exists x rest,
    s = x :: rest /\ cls x = true /\ exec k (Some x) rest (S n) marks = Some r.
Proof.
  cbn [exec]. destruct s as [|x s]; [discriminate|].
  destruct (cls x) eqn:E; [|discriminate].
  intros H. now exists x, s.
Qed.

Lemma exec_boundary_inv (k : pattern) (prev : option ascii) (s : list ascii)
  (n : nat) (marks : list nat) (r : nat * list nat) :
  exec (AT_BOUNDARY :: k) prev s n marks = Some r ->
  exec k prev s n marks = Some r.
Proof. cbn [exec]. now destruct (xorb _ _). Qed.

(** One step of a match: the operation takes a stretch [w] of the text and
    the rest of the pattern matches what follows. *)
Lemma exec_cons_inv (o : op) (k : pattern) (prev : option ascii)
  (s : list ascii) (n : nat) (marks : list nat) (r : nat * list nat) :
  exec (o :: k) prev s n marks = Some r ->
  exists (w rest : list ascii) (prev' : option ascii) (marks1 : list nat),
    s = w ++ rest
    /\ exec k prev' rest (n + length w) marks1 = Some r
    /\ (if consumes o then (1 <= length w)%nat else w = [])
    /\ match o with
       | LITERAL c => w = [c]
       | IN cls => exists x, w = [x] /\ cls x = true
       | MAX_REPEAT cls => forallb cls w = true
       | AT_BOUNDARY | MARK => True
       end.
Proof.
  intros H. destruct o.
  - apply exec_literal_inv in H as (rest & -> & H).
    exists [c], rest, (Some c), marks. cbn [length app consumes].
    rewrite Nat.add_1_r. now repeat split.
  - apply exec_in_inv in H as (x & rest & -> & Hx & H).
    exists [x], rest, (Some x), marks. cbn [length app consumes].
    rewrite Nat.add_1_r. repeat split; try assumption; [lia|]. now exists x.
  - apply exec_repeat_inv in H as (w & rest & prev' & -> & Hw & Hall & H).
    exists w, rest, prev', marks. cbn [consumes].
    repeat split; try assumption. destruct w; [congruence|cbn; lia].
  - apply exec_boundary_inv in H.
    exists [], s, prev, marks. cbn [length app consumes].
    rewrite Nat.add_0_r. now repeat split.
  - cbn [exec] in H.
    exists [], s, prev, (marks ++ [n]). cbn [length app consumes].
    rewrite Nat.add_0_r. now repeat split.
Qed.

(** A match lies inside the text and is at least as long as the number of
    consuming operations of its pattern. *)
Lemma exec_span (ops : pattern) :
  forall (prev : option ascii) (s : list ascii) (n : nat) (marks : list nat)
         (n' : nat) (marks' : list nat),
    exec ops prev s n marks = Some (n', marks') ->
    (n + width ops <= n')%nat /\ (n' <= n + length s)%nat.
Proof.
  unfold width.
  induction ops as [|o ops IH]; intros prev s n marks n' marks' H.
  - cbn in H. injection H as <- <-. cbn. lia.
  - apply exec_cons_inv in H
      as (w & rest & prev' & marks1 & -> & H & Hw & _).
    apply IH in H. rewrite length_app. cbn [filter].
    destruct (consumes o); [|subst w]; cbn [length] in *; lia.
Qed.

(** When the classes of a pattern are made of characters that [keep] drops,
    what [keep] keeps of a match is what it keeps of the characters that the
    pattern names. *)
Lemma exec_text (keep : ascii -> bool) (ops : pattern) :
  classes_dropped keep ops ->
  forall (prev : option ascii) (s : list ascii) (n : nat) (marks : list nat)
         (n' : nat) (marks' : list nat),
    exec ops prev s n marks = Some (n', marks') ->
    filter keep (firstn (n' - n) s) = filter keep (literals ops).
Proof.
  unfold classes_dropped, literals.
  induction ops as [|o ops IH]; intros Hcls prev s n marks n' marks' H.
  - cbn in H. injection H as <- <-. now rewrite Nat.sub_diag.
  - inversion Hcls as [|? ? Ho Hops]; subst.
    apply exec_cons_inv in H
      as (w & rest & prev' & marks1 & -> & H & Hc & Hw).
    pose proof (exec_span _ _ _ _ _ _ _ H) as [Hlo _].
    specialize (IH Hops _ _ _ _ _ _ H).
    replace (n' - n)%nat with (length w + (n' - (n + length w)))%nat by lia.
    rewrite firstn_app_2, filter_app, IH. cbn [flat_map].
    rewrite filter_app. f_equal.
    destruct o; try (cbn in Hc; subst w; reflexivity).
    + destruct Hw as (x & -> & Hx). cbn. now rewrite (Ho x Hx).
    + clear - Ho Hw. induction w as [|x w IHw]; [reflexivity|].
      cbn in Hw. apply andb_prop in Hw as [Hx Hw].
      cbn. rewrite (Ho x Hx). now apply IHw.
Qed.

End ExecSteps.

(** ** Substitution and replacement, measured on the text *)

Section SubMeasures.

Import Re Shape.

Lemma length_chars (s : string) : length (chars s) = String.length s.
Proof.
  unfold chars. induction s as [|c s IH]; [reflexivity|].
  cbn [list_ascii_of_string length String.length]. now rewrite IH.
Qed.

Lemma chars_of_list (l : list ascii) : chars (string_of_list_ascii l) = l.
Proof. apply list_ascii_of_string_of_list_ascii. Qed.

Lemma firstn_length_app {A : Type} (a b : list A) :
  firstn (length a) (a ++ b) = a.
Proof.
  rewrite <- (Nat.add_0_r (length a)), firstn_app_2.
  cbn. apply app_nil_r.
Qed.

Lemma skipn_length_app {A : Type} (a b : list A) (k : nat) :
  skipn (length a + k) (a ++ b) = skipn k b.
Proof. induction a as [|x a IH]; [reflexivity|exact IH]. Qed.

(** [re.sub] keeps what [keep] keeps, when each replacement keeps what its
    match keeps. *)
Lemma sub_from_filter (keep : ascii -> bool) (p : pattern)
  (tpl : list titem) :
  (forall prev s n marks,
      exec p prev s 0 [] = Some (S n, marks) ->
      filter keep (expand tpl s marks) = filter keep (firstn (S n) s)) ->
  forall (s : list ascii) (prev : option ascii) (skip : nat),
    filter keep (sub_from p tpl prev s skip) = filter keep (skipn skip s).
Proof.
  intros Hm. induction s as [|c s IH]; intros prev skip.
  - now destruct skip.
  - cbn [sub_from]. destruct skip as [|k]; [|apply IH].
    destruct (exec p prev (c :: s) 0 []) as [[[|n] marks]|] eqn:E.
    + cbn. now rewrite IH.
    + rewrite filter_app, (Hm _ _ _ _ E), IH, <- filter_app.
      cbn [firstn skipn]. now rewrite <- app_comm_cons, firstn_skipn.
    + cbn. now rewrite IH.
Qed.

(** [re.sub] does not lengthen the text when no replacement is longer than
    its match, and does not shorten it when none is shorter. *)
Lemma sub_from_length_le (p : pattern) (tpl : list titem) :
  (forall prev s n marks,
      exec p prev s 0 [] = Some (S n, marks) ->
      (length (expand tpl s marks) <= S n)%nat) ->
  forall (s : list ascii) (prev : option ascii) (skip : nat),
    (length (sub_from p tpl prev s skip) <= length (skipn skip s))%nat.
Proof.
  intros Hm. induction s as [|c s IH]; intros prev skip.
  - now destruct skip.
  - cbn [sub_from]. destruct skip as [|k]; [|apply IH].
    destruct (exec p prev (c :: s) 0 []) as [[[|n] marks]|] eqn:E.
    + specialize (IH (Some c) 0%nat). cbn in *. lia.
    + pose proof (Hm _ _ _ _ E) as Hlen.
      apply exec_span in E as [_ E]. cbn [length] in E.
      specialize (IH (Some c) n). rewrite length_skipn in IH.
      rewrite length_app. cbn [skipn length]. lia.
    + specialize (IH (Some c) 0%nat). cbn in *. lia.
Qed.

Lemma sub_from_length_ge (p : pattern) (tpl : list titem) :
  (forall prev s n marks,
      exec p prev s 0 [] = Some (S n, marks) ->
      (S n <= length (expand tpl s marks))%nat) ->
  forall (s : list ascii) (prev : option ascii) (skip : nat),
    (length (skipn skip s) <= length (sub_from p tpl prev s skip))%nat.
Proof.
  intros Hm. induction s as [|c s IH]; intros prev skip.
  - now destruct skip.
  - cbn [sub_from]. destruct skip as [|k]; [|apply IH].
    destruct (exec p prev (c :: s) 0 []) as [[[|n] marks]|] eqn:E.
    + specialize (IH (Some c) 0%nat). cbn in *. lia.
    + pose proof (Hm _ _ _ _ E) as Hlen.
      specialize (IH (Some c) n). rewrite length_skipn in IH.
      rewrite length_app. cbn [skipn length]. lia.
    + specialize (IH (Some c) 0%nat). cbn in *. lia.
Qed.

(** Where [old] starts the text, the text starts with [old]. *)
Lemma starts_with_inv (old : list ascii) :
  forall s, starts_with old s = true -> exists rest, s = old ++ rest.
Proof.
  induction old as [|o old IH]; intros s H; [now exists s|].
  destruct s as [|c s]; [discriminate|].
  cbn in H. apply andb_prop in H as [Hc H].
  apply Ascii.eqb_eq in Hc as ->. apply IH in H as (rest & ->).
  now exists rest.
Qed.

Lemma replace_from_filter (keep : ascii -> bool) (old new : list ascii) :
  old <> [] ->
  filter keep new = filter keep old ->
  forall (s : list ascii) (skip : nat),
    filter keep (replace_from old new s skip) = filter keep (skipn skip s).
Proof.
  intros Hold Hk. induction s as [|c s IH]; intros skip.
  - now destruct skip.
  - cbn [replace_from]. destruct skip as [|k]; [|apply IH].
    destruct (starts_with old (c :: s)) eqn:E.
    + apply starts_with_inv in E as (rest & E).
      destruct old as [|o old]; [congruence|].
      injection E as <- ->.
      rewrite filter_app, IH, Hk. cbn [length Nat.sub].
      rewrite Nat.sub_0_r, <- (Nat.add_0_r (length old)), skipn_length_app.
      cbn [skipn]. rewrite <- filter_app. reflexivity.
    + cbn. now rewrite IH.
Qed.

Lemma replace_from_length_le (old new : list ascii) :
  old <> [] ->
  (length new <= length old)%nat ->
  forall (s : list ascii) (skip : nat),
    (length (replace_from old new s skip) <= length (skipn skip s))%nat.
Proof.
  intros Hold Hk. induction s as [|c s IH]; intros skip.
  - now destruct skip.
  - cbn [replace_from]. destruct skip as [|k]; [|apply IH].
    destruct (starts_with old (c :: s)) eqn:E.
    + apply starts_with_inv in E as (rest & E).
      destruct old as [|o old]; [congruence|].
      injection E as <- ->. cbn [length Nat.sub] in *.
      specialize (IH (length old - 0)%nat).
      rewrite length_skipn, length_app in IH.
      rewrite length_app. cbn [skipn length]. rewrite length_app. lia.
    + specialize (IH 0%nat). cbn in *. lia.
Qed.

Lemma replace_from_length_ge (old new : list ascii) :
  old <> [] ->
  (length old <= length new)%nat ->
  forall (s : list ascii) (skip : nat),
    (length (skipn skip s) <= length (replace_from old new s skip))%nat.
Proof.
  intros Hold Hk. induction s as [|c s IH]; intros skip.
  - now destruct skip.
  - cbn [replace_from]. destruct skip as [|k]; [|apply IH].
    destruct (starts_with old (c :: s)) eqn:E.
    + apply starts_with_inv in E as (rest & E).
      destruct old as [|o old]; [congruence|].
      injection E as <- ->. cbn [length Nat.sub] in *.
      specialize (IH (length old - 0)%nat).
      rewrite length_skipn, length_app in IH.
      rewrite length_app. cbn [skipn length]. rewrite length_app. lia.
    + specialize (IH 0%nat). cbn in *. lia.
Qed.

End SubMeasures.

(** ** The patterns with groups, match by match *)

Section GroupedPatterns.

Import Re Shape FixRibbon FixRibbon2.

Lemma exec_mark (k : pattern) (prev : option ascii) (s : list ascii)
  (n : nat) (marks : list nat) :
  exec (MARK :: k) prev s n marks = exec k prev s n (marks ++ [n]).
Proof. reflexivity. Qed.

(** The head that lines 14 and 24 share: a group of letters and digits, a
    white space character, a hyphen, a white space character. *)
Lemma word_dash_inv (k : pattern) (prev : option ascii) (s : list ascii)
  (r : nat * list nat) :
  exec ([MARK; MAX_REPEAT alnum; MARK] ++ spaced_dash ++ k) prev s 0 []
  = Some r ->
  exists (w1 : list ascii) (x y : ascii) (rest : list ascii)
         (prev' : option ascii),
    s = w1 ++ x :: "-"%char :: y :: rest
    /\ w1 <> [] /\ forallb alnum w1 = true
    /\ space x = true /\ space y = true
    /\ exec k prev' rest (length w1 + 3) [0; length w1]%nat = Some r.
Proof.
  unfold spaced_dash. cbn [app]. rewrite exec_mark. intros H.
  apply exec_repeat_inv in H as (w1 & r1 & p1 & -> & Hw & Hall & H).
  rewrite exec_mark in H.
  apply exec_in_inv in H as (x & r2 & -> & Hx & H).
  apply exec_literal_inv in H as (r3 & -> & H).
  apply exec_in_inv in H as (y & rest & -> & Hy & H).
  exists w1, x, y, rest, (Some y). cbn [app Nat.add] in H.
  replace (length w1 + 3)%nat with (S (S (S (length w1)))) by lia.
  now repeat split.
Qed.

Lemma skipn_exact {A : Type} (a b : list A) : skipn (length a) (a ++ b) = b.
Proof.
  rewrite <- (Nat.add_0_r (length a)). apply (skipn_length_app a b 0).
Qed.

Lemma group_1 (w rest : list ascii) (a : nat) (more : list nat) :
  group (w ++ rest) (0%nat :: length w :: a :: more) 1 = w.
Proof.
  unfold group. cbn [Nat.sub Nat.mul Nat.add nth skipn].
  rewrite Nat.sub_0_r. apply firstn_length_app.
Qed.

Lemma group_2 (front w rest : list ascii) (a : nat) :
  group (front ++ w ++ rest)
    [0%nat; a; length front; (length front + length w)%nat] 2 = w.
Proof.
  unfold group. cbn [Nat.sub Nat.mul Nat.add nth].
  rewrite skipn_exact.
  replace (length front + length w - length front)%nat with (length w)
    by lia.
  apply firstn_length_app.
Qed.

(** Line 14, one match: the text matched and what replaces it. *)
Lemma word_dash_word_match (prev : option ascii) (s : list ascii) (n : nat)
  (marks : list nat) :
  exec word_dash_word prev s 0 [] = Some (n, marks) ->
  exists (w1 : list ascii) (x y : ascii) (w2 : list ascii),
    firstn n s = w1 ++ x :: "-"%char :: y :: w2
    /\ expand [Group 1; Text "-"; Group 2] s marks = w1 ++ "-"%char :: w2
    /\ space x = true /\ space y = true
    /\ n = (length w1 + 3 + length w2)%nat.
Proof.
  intros H. unfold word_dash_word in H.
  apply word_dash_inv in H
    as (w1 & x & y & rest & p & -> & _ & _ & Hx & Hy & H).
  rewrite exec_mark in H.
  apply exec_repeat_inv in H as (w2 & r2 & p2 & -> & _ & _ & H).
  rewrite exec_mark in H. cbn [exec app] in H. injection H as <- <-.
  exists w1, x, y, w2. repeat split; try assumption.
  - rewrite <- Nat.add_assoc, firstn_app_2. f_equal.
    cbn [Nat.add firstn]. do 3 f_equal. apply firstn_length_app.
  - unfold expand. cbn [flat_map]. rewrite group_1.
    change (chars "-") with ["-"%char]. rewrite app_nil_r.
    cbn [app]. do 2 f_equal.
    change (w1 ++ x :: "-"%char :: y :: w2 ++ r2)
      with (w1 ++ [x; "-"%char; y] ++ w2 ++ r2).
    rewrite (app_assoc w1).
    replace (length w1 + 3)%nat with (length (w1 ++ [x; "-"%char; y]))
      by (rewrite length_app; reflexivity).
    apply group_2.
Qed.

(** Line 24, one match. *)
Lemma word_dash_bracket_match (prev : option ascii) (s : list ascii)
  (n : nat) (marks : list nat) :
  exec word_dash_bracket prev s 0 [] = Some (n, marks) ->
  exists (w1 : list ascii) (x y : ascii),
    firstn n s = w1 ++ [x; "-"; y; "["]%char
    /\ expand [Group 1; Text "-"; Group 2] s marks = w1 ++ ["-"; "["]%char
    /\ space x = true /\ space y = true
    /\ n = (length w1 + 4)%nat.
Proof.
  intros H. unfold word_dash_bracket in H.
  apply word_dash_inv in H
    as (w1 & x & y & rest & p & -> & _ & _ & Hx & Hy & H).
  rewrite exec_mark in H.
  apply exec_literal_inv in H as (r2 & -> & H).
  rewrite exec_mark in H. cbn [exec app] in H. injection H as <- <-.
  exists w1, x, y. repeat split; try assumption; try lia.
  - replace (S (length w1 + 3)) with (length w1 + 4)%nat by lia.
    now rewrite firstn_app_2.
  - unfold expand. cbn [flat_map]. rewrite group_1.
    change (chars "-") with ["-"%char]. rewrite app_nil_r.
    cbn [app]. do 2 f_equal.
    change (w1 ++ x :: "-"%char :: y :: "["%char :: r2)
      with (w1 ++ [x; "-"%char; y] ++ ["["%char] ++ r2).
    rewrite (app_assoc w1).
    replace (length w1 + 3)%nat with (length (w1 ++ [x; "-"%char; y]))
      by (rewrite length_app; reflexivity).
    replace (S (length (w1 ++ [x; "-"%char; y])))
      with (length (w1 ++ [x; "-"%char; y]) + length ["["%char])%nat
      by (cbn [length]; lia).
    apply group_2.
Qed.

(** fix_ribbon_2.py line 13, one match. *)
Lemma bracket_letter_match (prev : option ascii) (s : list ascii) (n : nat)
  (marks : list nat) :
  exec bracket_letter prev s 0 [] = Some (n, marks) ->
  exists (w : list ascii) (x : ascii),
    firstn n s = chars "bg-[" ++ w ++ ["]"%char; x]
    /\ expand [Group 1; Text " "; Group 2] s marks
       = chars "bg-[" ++ w ++ ["]"; " "; x]%char
    /\ w <> [] /\ forallb not_bracket w = true /\ alpha x = true
    /\ n = (length w + 6)%nat.
Proof.
  intros H. unfold bracket_letter in H.
  change (lit "bg-[") with (map LITERAL (chars "bg-[")) in H.
  change (chars "bg-[") with ["b"; "g"; "-"; "["]%char in *.
  cbn [app map] in H. rewrite exec_mark in H.
  apply exec_literal_inv in H as (r1 & -> & H).
  apply exec_literal_inv in H as (r2 & -> & H).
  apply exec_literal_inv in H as (r3 & -> & H).
  apply exec_literal_inv in H as (r4 & -> & H).
  apply exec_repeat_inv in H as (w & r5 & p5 & -> & Hw & Hall & H).
  apply exec_literal_inv in H as (r6 & -> & H).
  rewrite !exec_mark in H.
  apply exec_in_inv in H as (x & rest & -> & Hx & H).
  rewrite exec_mark in H. cbn [exec app] in H. injection H as <- <-.
  exists w, x. repeat split; try assumption; try lia.
  - cbn [Nat.add app]. rewrite !firstn_cons. do 4 f_equal.
    replace (S (S (length w))) with (length w + 2)%nat by lia.
    change (w ++ "]"%char :: x :: rest) with (w ++ ["]"%char; x] ++ rest).
    now rewrite firstn_app_2.
  - set (front := ["b"; "g"; "-"; "["]%char ++ w ++ ["]"%char]).
    assert (Hlen : length front = S (S (S (S (S (length w)))))).
    { unfold front. rewrite !length_app. cbn [length]. lia. }
    replace ("b"%char :: "g"%char :: "-"%char :: "["%char
             :: w ++ "]"%char :: x :: rest)
      with (front ++ [x] ++ rest)
      by (unfold front; cbn [app]; now rewrite <- app_assoc).
    rewrite <- Hlen.
    replace (S (length front)) with (length front + length [x])%nat
      by (cbn [length]; lia).
    unfold expand. cbn [flat_map]. rewrite group_1, group_2.
    change (chars " ") with [" "%char].
    unfold front. rewrite app_nil_r, <- !app_assoc. reflexivity.
Qed.

End GroupedPatterns.

(** ** fix_ribbon.py and fix_ribbon_2.py: what the repair keeps *)

Section RepairKeeps.

Import Re Shape RuleShape FixRibbon.

Lemma apply_rule_keeps (keep : ascii -> bool) (r : rule) (content : string) :
  keeps keep r ->
  filter keep (chars (apply_rule content r)) = filter keep (chars content).
Proof.
  destruct r as [p tpl|old new]; cbn [keeps apply_rule]; unfold sub, replace;
    rewrite chars_of_list.
  - intros H. now rewrite (sub_from_filter keep p tpl H).
  - intros [Hold H]. now rewrite (replace_from_filter keep _ _ Hold H).
Qed.

Lemma apply_rule_not_longer (r : rule) (content : string) :
  not_longer r ->
  (length (chars (apply_rule content r)) <= length (chars content))%nat.
Proof.
  destruct r as [p tpl|old new]; cbn [not_longer apply_rule];
    unfold sub, replace; rewrite chars_of_list.
  - intros H. apply (sub_from_length_le p tpl H _ None 0%nat).
  - intros [Hold H]. apply (replace_from_length_le _ _ Hold H _ 0%nat).
Qed.

Lemma apply_rule_not_shorter (r : rule) (content : string) :
  not_shorter r ->
  (length (chars content) <= length (chars (apply_rule content r)))%nat.
Proof.
  destruct r as [p tpl|old new]; cbn [not_shorter apply_rule];
    unfold sub, replace; rewrite chars_of_list.
  - intros H. apply (sub_from_length_ge p tpl H _ None 0%nat).
  - intros [Hold H]. apply (replace_from_length_ge _ _ Hold H _ 0%nat).
Qed.

(** A list of rules with a property that each one passes on. *)
Lemma apply_rules_keeps (keep : ascii -> bool) (rs : list rule) :
  (forall r, In r rs -> keeps keep r) ->
  forall content,
    filter keep (chars (fold_left apply_rule rs content))
    = filter keep (chars content).
Proof.
  induction rs as [|r rs IH]; intros H content; [reflexivity|].
  cbn [fold_left]. rewrite IH by (intros r' Hr; apply H; now right).
  apply apply_rule_keeps, H. now left.
Qed.

Lemma apply_rules_not_longer (rs : list rule) :
  (forall r, In r rs -> not_longer r) ->
  forall content,
    (length (chars (fold_left apply_rule rs content))
     <= length (chars content))%nat.
Proof.
  induction rs as [|r rs IH]; intros H content; [reflexivity|].
  cbn [fold_left].
  etransitivity; [apply IH; intros r' Hr; apply H; now right|].
  apply apply_rule_not_longer, H. now left.
Qed.

Lemma apply_rules_not_shorter (rs : list rule) :
  (forall r, In r rs -> not_shorter r) ->
  forall content,
    (length (chars content)
     <= length (chars (fold_left apply_rule rs content)))%nat.
Proof.
  induction rs as [|r rs IH]; intros H content; [reflexivity|].
  cbn [fold_left].
  etransitivity; [|apply IH; intros r' Hr; apply H; now right].
  apply apply_rule_not_shorter, H. now left.
Qed.

(** A pattern of literals and dropped classes, replaced by a fixed text that
    keeps what the literals keep. *)
Lemma plain_keeps (keep : ascii -> bool) (p : pattern) (t : string) :
  classes_dropped keep p ->
  filter keep (chars t) = filter keep (literals p) ->
  keeps keep (Sub p [Text t]).
Proof.
  intros Hcls Ht prev s n marks H. unfold expand. cbn [flat_map].
  rewrite app_nil_r, Ht.
  rewrite <- (exec_text keep p Hcls _ _ _ _ _ _ H). now rewrite Nat.sub_0_r.
Qed.

(** A pattern replaced by a fixed text that is not longer than the pattern
    is wide. *)
Lemma plain_not_longer (p : pattern) (t : string) :
  (length (chars t) <= width p)%nat -> not_longer (Sub p [Text t]).
Proof.
  intros Ht prev s n marks H. unfold expand. cbn [flat_map].
  rewrite app_nil_r. apply exec_span in H. lia.
Qed.

Lemma space_is_not_black (c : ascii) : space c = true -> black c = false.
Proof. intros H. unfold black. now rewrite H. Qed.

Lemma word_dash_word_keeps :
  keeps black (Sub word_dash_word [Group 1; Text "-"; Group 2]).
Proof.
  intros prev s n marks H.
  apply word_dash_word_match in H as (w1 & x & y & w2 & -> & -> & Hx & Hy & _).
  rewrite !filter_app. cbn [filter].
  now rewrite (space_is_not_black x Hx), (space_is_not_black y Hy).
Qed.

Lemma word_dash_bracket_keeps :
  keeps black (Sub word_dash_bracket [Group 1; Text "-"; Group 2]).
Proof.
  intros prev s n marks H.
  apply word_dash_bracket_match in H as (w1 & x & y & -> & -> & Hx & Hy & _).
  rewrite !filter_app. cbn [filter].
  now rewrite (space_is_not_black x Hx), (space_is_not_black y Hy).
Qed.

Lemma word_dash_word_not_longer :
  not_longer (Sub word_dash_word [Group 1; Text "-"; Group 2]).
Proof.
  intros prev s n marks H.
  apply word_dash_word_match in H as (w1 & x & y & w2 & _ & -> & _ & _ & Hn).
  rewrite length_app. cbn [length]. lia.
Qed.

Lemma word_dash_bracket_not_longer :
  not_longer (Sub word_dash_bracket [Group 1; Text "-"; Group 2]).
Proof.
  intros prev s n marks H.
  apply word_dash_bracket_match in H as (w1 & x & y & _ & -> & _ & _ & Hn).
  rewrite length_app. cbn [length]. lia.
Qed.

(** The classes of a pattern at hand are classes of white space. *)
Ltac white_classes :=
  unfold classes_dropped; repeat constructor;
  intros c Hc; exact (space_is_not_black c Hc).

(** The rules of a rule set, one by one. *)
Ltac each_rule Hin :=
  cbn [map app] in Hin;
  repeat (destruct Hin as [<-|Hin]); [..|destruct Hin].

Lemma fix_ribbon_rules_keep : forall r, In r rules -> keeps black r.
Proof.
  intros r Hin. unfold rules, prefixes in Hin. each_rule Hin.
  all: match goal with
       | |- keeps _ (Sub word_dash_word _) => exact word_dash_word_keeps
       | |- keeps _ (Sub word_dash_bracket _) => exact word_dash_bracket_keeps
       | |- keeps _ (Sub _ [Text _]) =>
           apply plain_keeps; [white_classes|vm_compute; reflexivity]
       | |- keeps _ (Replace _ _) =>
           split; [vm_compute; discriminate|vm_compute; reflexivity]
       end.
Qed.

Lemma fix_ribbon_rules_not_longer : forall r, In r rules -> not_longer r.
Proof.
  intros r Hin. unfold rules, prefixes in Hin. each_rule Hin.
  all: match goal with
       | |- not_longer (Sub word_dash_word _) =>
           exact word_dash_word_not_longer
       | |- not_longer (Sub word_dash_bracket _) =>
           exact word_dash_bracket_not_longer
       | |- not_longer (Sub _ [Text _]) =>
           apply plain_not_longer, Nat.leb_le; vm_compute; reflexivity
       | |- not_longer (Replace _ _) =>
           split; [vm_compute; discriminate
                  |apply Nat.leb_le; vm_compute; reflexivity]
       end.
Qed.

(** fix_ribbon.py changes white space only: the characters of the text that
    are not white space come out the same, in the same order. *)
Theorem fix_ribbon_changes_white_space_only :
  forall content : string,
    filter black (chars (fix_ribbon content)) = filter black (chars content).
Proof.
  intros content. apply apply_rules_keeps, fix_ribbon_rules_keep.
Qed.

(** fix_ribbon.py never makes the text longer. *)
Theorem fix_ribbon_never_lengthens :
  forall content : string,
    (String.length (fix_ribbon content) <= String.length content)%nat.
Proof.
  intros content. rewrite <- !length_chars.
  apply apply_rules_not_longer, fix_ribbon_rules_not_longer.
Qed.

End RepairKeeps.

(** ** fix_ribbon_2.py: what the repair keeps *)

Section Repair2Keeps.

Import Re Shape RuleShape FixRibbon.

Lemma bracket_letter_keeps :
  keeps not_blank (Sub FixRibbon2.bracket_letter [Group 1; Text " "; Group 2]).
Proof.
  intros prev s n marks H.
  apply bracket_letter_match in H as (w & x & -> & -> & _).
  rewrite !filter_app. reflexivity.
Qed.

Lemma bracket_letter_not_shorter :
  not_shorter (Sub FixRibbon2.bracket_letter [Group 1; Text " "; Group 2]).
Proof.
  intros prev s n marks H.
  apply bracket_letter_match in H as (w & x & _ & -> & _ & _ & _ & Hn).
  rewrite !length_app. cbn [length]. change (length (chars "bg-[")) with 4%nat.
  lia.
Qed.

Lemma fix_ribbon_2_rules_keep :
  forall r, In r FixRibbon2.rules -> keeps not_blank r.
Proof.
  intros r [<-|[<-|[]]].
  - split; [vm_compute; discriminate|vm_compute; reflexivity].
  - exact bracket_letter_keeps.
Qed.

Lemma fix_ribbon_2_rules_not_shorter :
  forall r, In r FixRibbon2.rules -> not_shorter r.
Proof.
  intros r [<-|[<-|[]]].
  - split; [vm_compute; discriminate|apply Nat.leb_le; vm_compute; reflexivity].
  - exact bracket_letter_not_shorter.
Qed.

(** fix_ribbon_2.py only adds space characters: the characters of the text
    other than the space come out the same, in the same order. *)
Theorem fix_ribbon_2_adds_spaces_only :
  forall content : string,
    filter not_blank (chars (FixRibbon2.fix_ribbon_2 content))
    = filter not_blank (chars content).
Proof.
  intros content. apply apply_rules_keeps, fix_ribbon_2_rules_keep.
Qed.

(** fix_ribbon_2.py never makes the text shorter. *)
Theorem fix_ribbon_2_never_shortens :
  forall content : string,
    (String.length content
     <= String.length (FixRibbon2.fix_ribbon_2 content))%nat.
Proof.
  intros content. rewrite <- !length_chars.
  apply apply_rules_not_shorter, fix_ribbon_2_rules_not_shorter.
Qed.

End Repair2Keeps.

(** ** Texts that the repairs leave alone *)

Section RepairTargets.

Import Re Shape RuleShape FixRibbon.

Variables P Q : ascii -> bool.

Lemma adjacent_app_r (s1 s2 : list ascii) :
  adjacent P Q s2 = true -> adjacent P Q (s1 ++ s2) = true.
Proof.
  intros H. induction s1 as [|c s1 IH]; [exact H|].
  cbn [app adjacent]. destruct (s1 ++ s2) as [|d t] eqn:E.
  - destruct s1; [|discriminate]. cbn in E. subst s2. discriminate.
  - rewrite IH. apply orb_true_r.
Qed.

Lemma adjacent_app_l (s1 s2 : list ascii) :
  adjacent P Q s1 = true -> adjacent P Q (s1 ++ s2) = true.
Proof.
  induction s1 as [|c s1 IH]; [discriminate|].
  destruct s1 as [|d s1]; [discriminate|].
  cbn [adjacent app] in *. intros H.
  apply orb_true_iff in H as [H|H]; [now rewrite H|].
  rewrite (IH H). apply orb_true_r.
Qed.

Lemma adjacent_mid (l : list ascii) (x d : ascii) (r : list ascii) :
  P x = true -> Q d = true -> adjacent P Q (l ++ x :: d :: r) = true.
Proof.
  intros Hx Hd. apply adjacent_app_r. cbn [adjacent]. now rewrite Hx, Hd.
Qed.

(** A text without a character of [P] has no such pair. *)
Lemma adjacent_none (s : list ascii) :
  forallb (fun c => negb (P c)) s = true -> adjacent P Q s = false.
Proof.
  induction s as [|c s IH]; [reflexivity|].
  cbn [forallb]. intros H. apply andb_prop in H as [Hc H].
  destruct s as [|d s]; [reflexivity|].
  cbn [adjacent]. apply negb_true_iff in Hc. rewrite Hc. now apply IH.
Qed.

Lemma subclass_sound (cls R : ascii -> bool) :
  subclass cls R = true -> forall c, cls c = true -> R c = true.
Proof.
  unfold subclass. rewrite forallb_forall. intros H c Hc.
  specialize (H (nat_of_ascii c)). rewrite ascii_nat_embedding, Hc in H.
  apply H, in_seq. pose proof (nat_ascii_bounded c). lia.
Qed.

(** Where a pattern that [starts_in Q] matches, the text starts with a
    character of [Q]. *)
Lemma exec_starts_in (ops : pattern) :
  starts_in Q ops = true ->
  forall (prev : option ascii) (s : list ascii) (n : nat) (marks : list nat)
         (r : nat * list nat),
    exec ops prev s n marks = Some r ->
    exists d rest, s = d :: rest /\ Q d = true.
Proof.
  induction ops as [|o ops IH]; [discriminate|].
  intros Hs prev s n marks r H. destruct o; cbn [starts_in consumes] in Hs.
  - apply exec_literal_inv in H as (rest & -> & _). now exists c, rest.
  - apply exec_in_inv in H as (x & rest & -> & Hx & _).
    exists x, rest. split; [reflexivity|].
    exact (subclass_sound _ _ Hs x Hx).
  - apply exec_repeat_inv in H as (w & rest & _ & -> & Hw & Hall & _).
    destruct w as [|d w]; [congruence|].
    cbn in Hall. apply andb_prop in Hall as [Hd _].
    exists d, (w ++ rest). split; [reflexivity|].
    exact (subclass_sound _ _ Hs d Hd).
  - apply exec_boundary_inv in H. exact (IH Hs _ _ _ _ _ H).
  - cbn [exec] in H. exact (IH Hs _ _ _ _ _ H).
Qed.

(** An operation that takes characters of [P] only ends on one. *)
Lemma exec_takes_last (o : op) (k : pattern) :
  takes_only P o = true ->
  forall (prev : option ascii) (s : list ascii) (n : nat) (marks : list nat)
         (r : nat * list nat),
    exec (o :: k) prev s n marks = Some r ->
    exists (w : list ascii) (x : ascii) (rest : list ascii)
           (prev' : option ascii) (n1 : nat) (marks1 : list nat),
      s = w ++ x :: rest /\ P x = true
      /\ exec k prev' rest n1 marks1 = Some r.
Proof.
  intros Ho prev s n marks r H. destruct o; cbn [takes_only] in Ho;
    try discriminate.
  - apply exec_literal_inv in H as (rest & -> & H).
    now exists [], c, rest, (Some c), (S n), marks.
  - apply exec_in_inv in H as (x & rest & -> & Hx & H).
    exists [], x, rest, (Some x), (S n), marks.
    repeat split; [|exact H]. exact (subclass_sound _ _ Ho x Hx).
  - apply exec_repeat_inv in H as (w & rest & prev' & -> & Hw & Hall & H).
    destruct (exists_last Hw) as (w' & x & ->).
    rewrite forallb_app in Hall. apply andb_prop in Hall as [_ Hx].
    cbn in Hx. rewrite andb_true_r in Hx.
    exists w', x, rest, prev', (n + length (w' ++ [x]))%nat, marks.
    rewrite <- app_assoc. repeat split; [|exact H].
    exact (subclass_sound _ _ Ho x Hx).
Qed.

(** Where a pattern that [asks_adjacent] matches, the text has the pair. *)
Lemma exec_adjacent (ops : pattern) :
  asks_adjacent P Q ops = true ->
  forall (prev : option ascii) (s : list ascii) (n : nat) (marks : list nat)
         (r : nat * list nat),
    exec ops prev s n marks = Some r -> adjacent P Q s = true.
Proof.
  induction ops as [|o ops IH]; [discriminate|].
  cbn [asks_adjacent]. intros Ha prev s n marks r H.
  apply orb_true_iff in Ha as [Ha|Ha].
  - apply andb_prop in Ha as [Ho Hs].
    destruct (exec_takes_last o ops Ho _ _ _ _ _ H)
      as (w & x & rest & prev' & n1 & marks1 & -> & Hx & H').
    destruct (exec_starts_in ops Hs _ _ _ _ _ H') as (d & rest' & -> & Hd).
    now apply adjacent_mid.
  - destruct r as [n' marks'].
    apply exec_cons_inv in H as (w & rest & prev' & marks1 & -> & H & _).
    apply adjacent_app_r. exact (IH Ha _ _ _ _ _ H).
Qed.

Lemma search_from_adjacent (p : pattern) :
  asks_adjacent P Q p = true ->
  forall (s : list ascii) (prev : option ascii),
    search_from p prev s = true -> adjacent P Q s = true.
Proof.
  intros Ha. induction s as [|c s IH]; intros prev H.
  - cbn [search_from] in H.
    destruct (exec p prev [] 0 []) as [r|] eqn:E; [|discriminate].
    exact (exec_adjacent p Ha _ _ _ _ _ E).
  - cbn [search_from] in H.
    destruct (exec p prev (c :: s) 0 []) as [r|] eqn:E.
    + exact (exec_adjacent p Ha _ _ _ _ _ E).
    + apply (adjacent_app_r [c]). exact (IH _ H).
Qed.

Lemma contains_from_adjacent (old : list ascii) :
  adjacent P Q old = true ->
  forall s, contains_from old s = true -> adjacent P Q s = true.
Proof.
  intros Ha. induction s as [|c s IH]; intros H.
  - cbn [contains_from] in H. rewrite orb_false_r in H.
    apply starts_with_inv in H as (rest & ->). now apply adjacent_app_l.
  - cbn [contains_from] in H. apply orb_true_iff in H as [H|H].
    + apply starts_with_inv in H as (rest & ->). now apply adjacent_app_l.
    + apply (adjacent_app_r [c]). exact (IH H).
Qed.

(** A rule whose target has the pair does not match a text without it. *)
Lemma rule_needs_adjacent (r : rule) (content : string) :
  targets_adjacent P Q r = true ->
  adjacent P Q (chars content) = false ->
  rule_matches content r = false.
Proof.
  intros Hr Hc. destruct (rule_matches content r) eqn:E; [|reflexivity].
  rewrite <- Hc. symmetry.
  destruct r as [p tpl|old new]; cbn [targets_adjacent rule_matches] in *.
  - exact (search_from_adjacent p Hr _ _ E).
  - exact (contains_from_adjacent _ Hr _ E).
Qed.

Lemma rules_need_adjacent (rs : list rule) (content : string) :
  forallb (targets_adjacent P Q) rs = true ->
  adjacent P Q (chars content) = false ->
  fold_left apply_rule rs content = content.
Proof.
  intros Hrs Hc. apply apply_rules_no_match.
  induction rs as [|r rs IH]; [reflexivity|].
  cbn [forallb] in Hrs. apply andb_prop in Hrs as [Hr Hrs].
  cbn [existsb]. rewrite (rule_needs_adjacent r content Hr Hc). now apply IH.
Qed.

End RepairTargets.

Section RepairFixedPoints.

Import Re Shape RuleShape FixRibbon.

(** fix_ribbon.py leaves a text alone in which no hyphen directly follows a
    white space character. *)
Theorem fix_ribbon_needs_space_before_hyphen :
  forall content : string,
    adjacent space (is_char "-") (chars content) = false ->
    fix_ribbon content = content.
Proof.
  intros content H. apply (rules_need_adjacent space (is_char "-")); [|exact H].
  vm_compute. reflexivity.
Qed.

Lemma fix_ribbon_needs_space_before_hyphen_witness :
  fix_ribbon MoreSamples.clean_classes = MoreSamples.clean_classes.
Proof.
  apply (fix_ribbon_needs_space_before_hyphen MoreSamples.clean_classes).
  vm_compute. reflexivity.
Defined.

(** fix_ribbon_2.py leaves a text alone in which no letter directly follows
    a closing bracket. *)
Theorem fix_ribbon_2_needs_letter_after_bracket :
  forall content : string,
    adjacent (is_char "]") FixRibbon2.alpha (chars content) = false ->
    FixRibbon2.fix_ribbon_2 content = content.
Proof.
  intros content H.
  apply (rules_need_adjacent (is_char "]") FixRibbon2.alpha); [|exact H].
  vm_compute. reflexivity.
Qed.

Lemma fix_ribbon_2_needs_letter_after_bracket_witness :
  FixRibbon2.fix_ribbon_2 MoreSamples.spaced_border
  = MoreSamples.spaced_border.
Proof.
  apply (fix_ribbon_2_needs_letter_after_bracket MoreSamples.spaced_border).
  vm_compute. reflexivity.
Defined.

End RepairFixedPoints.

(** ** fix_ribbon.py: two words around a spaced hyphen *)

Section RepairJoins.

Import Re Shape RuleShape FixRibbon.

Lemma chars_app (a b : string) : chars (a ++ b) = chars a ++ chars b.
Proof.
  unfold chars. induction a as [|c a IH]; [reflexivity|].
  cbn [String.append list_ascii_of_string app]. now rewrite IH.
Qed.

Lemma chars_String (c : ascii) (s : string) : chars (String c s) = c :: chars s.
Proof. reflexivity. Qed.

(** A stretch of characters of the class, up to the end of the text or to a
    character outside of the class, is what the repeat takes first. *)
Lemma run_all (cls : ascii -> bool) (w rest : list ascii) :
  forallb cls w = true ->
  match rest with [] => true | c :: _ => negb (cls c) end = true ->
  run cls (w ++ rest) = length w.
Proof.
  intros Hw Hr. induction w as [|a w IH].
  - destruct rest as [|c rest]; [reflexivity|].
    cbn [app run length]. apply negb_true_iff in Hr. now rewrite Hr.
  - cbn [forallb] in Hw. apply andb_prop in Hw as [Ha Hw].
    cbn [app run length]. rewrite Ha. f_equal. now apply IH.
Qed.

(** The repeat keeps all it took when the rest of the pattern then matches. *)
Lemma exec_repeat_greedy (cls : ascii -> bool) (k : pattern)
  (prev : option ascii) (s : list ascii) (n : nat) (marks : list nat)
  (j : nat) (r : nat * list nat) :
  run cls s = S j ->
  exec k (nth_error s j) (skipn (S j) s) (n + S j) marks = Some r ->
  exec (MAX_REPEAT cls :: k) prev s n marks = Some r.
Proof. intros Hrun H. cbn [exec]. rewrite Hrun. now rewrite H. Qed.

Lemma exec_in_step (cls : ascii -> bool) (k : pattern) (prev : option ascii)
  (x : ascii) (s : list ascii) (n : nat) (marks : list nat) :
  cls x = true ->
  exec (IN cls :: k) prev (x :: s) n marks = exec k (Some x) s (S n) marks.
Proof. intros H. cbn [exec]. now rewrite H. Qed.

Lemma exec_literal_step (c : ascii) (k : pattern) (prev : option ascii)
  (s : list ascii) (n : nat) (marks : list nat) :
  exec (LITERAL c :: k) prev (c :: s) n marks = exec k (Some c) s (S n) marks.
Proof. cbn [exec]. now rewrite Ascii.eqb_refl. Qed.

(** Line 14 on two words around a spaced hyphen: the match is the whole
    text. *)
Lemma word_dash_word_whole (w1 w2 : list ascii) (x y : ascii)
  (prev : option ascii) :
  w1 <> [] -> w2 <> [] ->
  forallb alnum w1 = true -> forallb alnum w2 = true ->
  space x = true -> space y = true ->
  exec word_dash_word prev (w1 ++ x :: "-"%char :: y :: w2) 0 []
  = Some (length (w1 ++ x :: "-"%char :: y :: w2),
          [0; length w1; length (w1 ++ [x; "-"; y]%char);
           length (w1 ++ [x; "-"; y]%char) + length w2]%nat).
Proof.
  intros H1 H2 Ha1 Ha2 Hx Hy.
  assert (Hnx : negb (alnum x) = true).
  { apply (subclass_sound space (fun c => negb (alnum c))); [|exact Hx].
    vm_compute. reflexivity. }
  destruct w1 as [|a w1]; [congruence|]. destruct w2 as [|b w2]; [congruence|].
  unfold word_dash_word, spaced_dash. cbn [app]. rewrite exec_mark.
  apply exec_repeat_greedy with (j := length w1).
  { apply (run_all alnum (a :: w1)); assumption. }
  cbn [skipn]. rewrite skipn_exact.
  rewrite exec_mark, (exec_in_step _ _ _ _ _ _ _ Hx), exec_literal_step,
    (exec_in_step _ _ _ _ _ _ _ Hy), exec_mark.
  apply exec_repeat_greedy with (j := length w2).
  { rewrite <- (app_nil_r (b :: w2)). now apply (run_all alnum (b :: w2)). }
  cbn [skipn]. rewrite skipn_all.
  rewrite exec_mark. cbn [exec app length]. rewrite !length_app.
  cbn [length]. repeat f_equal; lia.
Qed.

(** Past the end of a match that reaches the end of the text, nothing is
    left to copy. *)
Lemma sub_from_skip_all (p : pattern) (tpl : list titem) :
  forall (s : list ascii) (prev : option ascii) (skip : nat),
    (length s <= skip)%nat -> sub_from p tpl prev s skip = [].
Proof.
  induction s as [|c s IH]; intros prev skip H; [reflexivity|].
  cbn [length] in H. destruct skip as [|k]; [lia|].
  cbn [sub_from]. apply IH. lia.
Qed.

Lemma sub_from_whole (p : pattern) (tpl : list titem) (prev : option ascii)
  (s : list ascii) (marks : list nat) :
  s <> [] ->
  exec p prev s 0 [] = Some (length s, marks) ->
  sub_from p tpl prev s 0 = expand tpl s marks.
Proof.
  intros Hs H. destruct s as [|c s]; [congruence|].
  cbn [sub_from]. rewrite H. cbn [length].
  rewrite sub_from_skip_all by lia. apply app_nil_r.
Qed.

Lemma alnum_text_has_no_space (w : list ascii) :
  forallb alnum w = true -> forallb (fun c => negb (space c)) w = true.
Proof.
  rewrite !forallb_forall. intros H c Hc.
  apply (subclass_sound alnum (fun c => negb (space c))); [|now apply H].
  vm_compute. reflexivity.
Qed.

(** fix_ribbon.py joins two words of letters and digits that stand around a
    hyphen with one white space character on each side: the white space
    goes, the words and the hyphen stay. *)
Theorem fix_ribbon_joins_spaced_words :
  forall (w1 w2 : string) (x y : ascii),
    w1 <> ""%string -> w2 <> ""%string ->
    forallb alnum (chars w1) = true -> forallb alnum (chars w2) = true ->
    space x = true -> space y = true ->
    fix_ribbon (w1 ++ String x (String "-" (String y w2)))
    = (w1 ++ String "-" w2)%string.
Proof.
  intros w1 w2 x y H1 H2 Ha1 Ha2 Hx Hy.
  assert (Hc1 : chars w1 <> []) by (destruct w1; [congruence|discriminate]).
  assert (Hc2 : chars w2 <> []) by (destruct w2; [congruence|discriminate]).
  unfold fix_ribbon, rules. cbn [app fold_left].
  assert (E : apply_rule (w1 ++ String x (String "-" (String y w2)))
                (Sub word_dash_word [Group 1; Text "-"; Group 2])
              = (w1 ++ String "-" w2)%string).
  { cbn [apply_rule]. unfold sub. rewrite chars_app, !chars_String.
    rewrite (sub_from_whole word_dash_word _ None _ _
               (fun E => app_cons_not_nil _ _ _ (eq_sym E))
               (word_dash_word_whole _ _ x y None Hc1 Hc2 Ha1 Ha2 Hx Hy)).
    unfold expand. cbn [flat_map]. rewrite group_1.
    replace (chars w1 ++ x :: "-"%char :: y :: chars w2)
      with ((chars w1 ++ [x; "-"; y]%char) ++ chars w2 ++ [])
      by (rewrite <- app_assoc, app_nil_r; reflexivity).
    rewrite group_2, app_nil_r. change (chars "-") with ["-"%char].
    rewrite <- (string_of_chars (w1 ++ String "-" w2)).
    now rewrite chars_app, chars_String. }
  rewrite E. apply (rules_need_adjacent space (is_char "-")).
  - vm_compute. reflexivity.
  - apply adjacent_none. rewrite chars_app, chars_String, forallb_app.
    cbn [forallb]. rewrite !alnum_text_has_no_space by assumption.
    reflexivity.
Qed.

Lemma fix_ribbon_joins_spaced_words_witness :
  fix_ribbon "flex - col" = "flex-col"%string.
Proof.
  apply (fix_ribbon_joins_spaced_words "flex" "col" " " " ");
    try discriminate; vm_compute; reflexivity.
Defined.

End RepairJoins.

(** ** fix_ribbon_2.py: a letter right after the bracket *)

Section Repair2Separates.

Import Re Shape RuleShape FixRibbon.

(** A character that occurs once splits the text in one way only. *)
Lemma split_unique {A : Type} (c : A) (l1 t1 l2 t2 : list A) :
  ~ In c l2 -> ~ In c t2 -> l1 ++ c :: t1 = l2 ++ c :: t2 -> t1 = t2.
Proof.
  revert l2. induction l1 as [|x l1 IH]; intros [|y l2] Hl Ht E;
    cbn [app] in E.
  - now injection E.
  - injection E as -> _. exfalso. apply Hl. now left.
  - injection E as -> E. exfalso. apply Ht. rewrite <- E. apply in_elt.
  - injection E as -> E. apply (IH l2); [|exact Ht|exact E].
    intros H. apply Hl. now right.
Qed.

Lemma contains_from_inv (old : list ascii) :
  forall s, contains_from old s = true -> exists a b, s = a ++ old ++ b.
Proof.
  induction s as [|c s IH]; cbn [contains_from]; intros H.
  - rewrite orb_false_r in H. apply starts_with_inv in H as (rest & ->).
    now exists [], rest.
  - apply orb_true_iff in H as [H|H].
    + apply starts_with_inv in H as (rest & ->). now exists [], rest.
    + apply IH in H as (a & b & ->). now exists (c :: a), b.
Qed.

Lemma no_bracket_in (w : list ascii) :
  forallb FixRibbon2.not_bracket w = true -> ~ In "]"%char w.
Proof.
  rewrite forallb_forall. intros H Hin. apply H in Hin. discriminate.
Qed.

(** Line 13 on one class with a letter right after it: the match is the
    whole text. *)
Lemma bracket_letter_whole (w : list ascii) (x : ascii)
  (prev : option ascii) :
  w <> [] -> forallb FixRibbon2.not_bracket w = true ->
  FixRibbon2.alpha x = true ->
  exec FixRibbon2.bracket_letter prev
    ((chars "bg-[" ++ w ++ ["]"%char]) ++ [x] ++ []) 0 []
  = Some (length ((chars "bg-[" ++ w ++ ["]"%char]) ++ [x] ++ []),
          [0; length (chars "bg-[" ++ w ++ ["]"%char]);
           length (chars "bg-[" ++ w ++ ["]"%char]);
           length (chars "bg-[" ++ w ++ ["]"%char]) + length [x]]%nat).
Proof.
  intros Hw Hall Hx. destruct w as [|a w]; [congruence|].
  unfold FixRibbon2.bracket_letter.
  change (lit "bg-[") with (map LITERAL ["b"; "g"; "-"; "["]%char).
  change (chars "bg-[") with ["b"; "g"; "-"; "["]%char.
  cbn [app map]. rewrite exec_mark, !exec_literal_step.
  apply exec_repeat_greedy with (j := length w).
  { rewrite <- app_assoc. now apply (run_all FixRibbon2.not_bracket (a :: w)). }
  cbn [skipn]. rewrite <- app_assoc, skipn_exact. cbn [app].
  rewrite exec_literal_step, !exec_mark, (exec_in_step _ _ _ _ _ _ _ Hx),
    exec_mark.
  cbn [exec app length]. rewrite !length_app. cbn [length].
  repeat f_equal; lia.
Qed.

(** fix_ribbon_2.py separates a class of the form bg-[...] from a letter
    that directly follows its closing bracket: a space goes in between. *)
Theorem fix_ribbon_2_separates_class_and_letter :
  forall (w : string) (x : ascii),
    w <> EmptyString ->
    forallb FixRibbon2.not_bracket (chars w) = true ->
    FixRibbon2.alpha x = true ->
    FixRibbon2.fix_ribbon_2 ("bg-[" ++ w ++ String "]" (String x EmptyString))
    = ("bg-[" ++ w ++ String "]" (String " " (String x EmptyString)))%string.
Proof.
  intros w x Hw Hall Hx.
  assert (Hc : chars w <> []) by (destruct w; [congruence|discriminate]).
  assert (E : chars ("bg-[" ++ w ++ String "]" (String x EmptyString))
              = (chars "bg-[" ++ chars w ++ ["]"%char]) ++ [x] ++ []).
  { rewrite !chars_app, !chars_String, <- !app_assoc. reflexivity. }
  unfold FixRibbon2.fix_ribbon_2, FixRibbon2.rules. cbn [fold_left].
  rewrite (apply_rule_no_match _ (Replace _ _)).
  - cbn [apply_rule]. unfold sub. rewrite E.
    assert (Hne : (chars "bg-[" ++ chars w ++ ["]"%char]) ++ [x] ++ [] <> []).
    { intros H. apply (f_equal (@length _)) in H.
      rewrite !length_app in H. cbn [length] in H. lia. }
    rewrite (sub_from_whole FixRibbon2.bracket_letter _ None _ _ Hne
               (bracket_letter_whole _ x None Hc Hall Hx)).
    unfold expand. cbn [flat_map]. rewrite group_1, group_2, app_nil_r.
    rewrite <- (string_of_chars
                  ("bg-[" ++ w ++ String "]" (String " " (String x EmptyString)))).
    f_equal. rewrite !chars_app, !chars_String, <- !app_assoc. reflexivity.
  - cbn [rule_matches]. unfold contains.
    destruct (contains_from _ _) eqn:C; [exfalso|reflexivity].
    apply contains_from_inv in C as (a & b & C).
    rewrite !chars_app in C.
    change (chars (String "]" (String x EmptyString)))
      with ("]"%char :: [x]) in C.
    change (chars "bg-[var(--border-color)]mx-1")
      with (chars "bg-[var(--border-color)" ++ "]"%char :: chars "mx-1") in C.
    rewrite (app_assoc (chars "bg-[")), <- (app_assoc _ ("]"%char :: _) b),
      (app_assoc a) in C.
    cbn [app] in C. symmetry in C. apply split_unique in C.
    + discriminate C.
    + intros H. apply in_app_or in H as [H|H].
      * revert H. now apply no_bracket_in.
      * revert H. now apply no_bracket_in.
    + intros [H|[]]. subst x. discriminate Hx.
Qed.

Lemma fix_ribbon_2_separates_class_and_letter_witness :
  FixRibbon2.fix_ribbon_2 "bg-[#333]p" = "bg-[#333] p"%string.
Proof.
  apply (fix_ribbon_2_separates_class_and_letter "#333" "p");
    try discriminate; vm_compute; reflexivity.
Defined.

End Repair2Separates.
